(** * reddit-post-notifier: a shallow embedding of [reddit_post_notifier/__main__.py]

    The development follows the source file top to bottom: the string
    helpers the program uses from Python's [str], the document tree the
    parser walks, [parse_reddit_search_results], the push channel,
    [send_reddit_notifications], the JSON file holding the notified ids,
    [load_search_config] and [main].

    Python strings are modelled as [string] (code points below 256), the
    set of notified ids as [gset string], and exceptions as values of
    [exn] threaded through a small state-and-error monad. *)

From Stdlib Require Import Ascii String List ZArith Lia.
From stdpp Require Import base decidable option list strings gmap pretty.

Local Open Scope string_scope.
Local Open Scope list_scope.

Set Warnings "-clear-no-such-hyp".

(** ** Exceptions *)

Module Py.

(** The exception classes the program can meet, each with its message
    ([str(e)]). *)
Inductive exn : Type :=
  | ValueError (msg : string)
  | TypeError (msg : string)
  | KeyError (msg : string)
  | IndexError (msg : string)
  | AttributeError (msg : string)
  | FileNotFoundError (msg : string)
  | OSError (msg : string)
  | UnicodeDecodeError (msg : string)
  | YAMLError (msg : string)
  | JSONDecodeError (msg : string)
  (** Not a Python exception: the answer of the model on an input it does
      not cover (a JSON document that is not an array of strings of code
      points below 256). *)
  | NotModelled (what : string).

Definition str_exn (e : exn) : string :=
  match e with
  | ValueError m | TypeError m | KeyError m | IndexError m
  | AttributeError m | FileNotFoundError m | OSError m
  | UnicodeDecodeError m | YAMLError m
  | JSONDecodeError m | NotModelled m => m
  end.

(** [JSONDecodeError] and [UnicodeDecodeError] are subclasses of
    [ValueError]. *)
Definition is_ValueError (e : exn) : bool :=
  match e with
  | ValueError _ | JSONDecodeError _ | UnicodeDecodeError _ => true
  | _ => false
  end.

(** Result of a computation without side effects. *)
Inductive result (A : Type) : Type :=
  | Ok (a : A)
  | Raise (e : exn).
Arguments Ok {A} a.
Arguments Raise {A} e.

#[export] Instance result_ret : MRet result := fun _ a => Ok a.

#[export] Instance result_bind : MBind result := fun _ _ k r =>
  match r with
  | Ok a => k a
  | Raise e => Raise e
  end.

(** [try: r  except ValueError: h] *)
Definition try_except_ValueError {A} (r : result A) (h : result A) : result A :=
  match r with
  | Ok a => Ok a
  | Raise e => if is_ValueError e then h else Raise e
  end.

Definition returns {A} (r : result A) : Prop := ∃ a, r = Ok a.

End Py.

Import Py.

(** ** Python [str] methods used by the program *)

Module Str.

(** [s.startswith(c)] for a one-character prefix. *)
Definition startswith_char (c : ascii) (s : string) : bool :=
  match s with
  | String a _ => Ascii.eqb a c
  | EmptyString => false
  end.

(** [s.split(sep)] for a one-character separator: never the empty list. *)
Fixpoint split (sep : ascii) (s : string) : list string :=
  match s with
  | EmptyString => [EmptyString]
  | String a s' =>
      if Ascii.eqb a sep then EmptyString :: split sep s'
      else match split sep s' with
           | [] => [String a EmptyString]
           | h :: t => String a h :: t
           end
  end.

(** [l[-1]]: the last element, [IndexError] on the empty list. *)
Fixpoint getitem_last {A} (l : list A) : result A :=
  match l with
  | [] => Raise (IndexError "list index out of range")
  | [x] => Ok x
  | _ :: l' => getitem_last l'
  end.

(** Whitespace in the sense of [str.isspace], for code points below 256. *)
Definition isspace (c : ascii) : bool :=
  let n := nat_of_ascii c in
  (((9 <=? n) && (n <=? 13)) || ((28 <=? n) && (n <=? 32))
   || (n =? 133) || (n =? 160))%nat.

Fixpoint lstrip (s : string) : string :=
  match s with
  | String a s' => if isspace a then lstrip s' else s
  | EmptyString => EmptyString
  end.

Fixpoint rstrip (s : string) : string :=
  match s with
  | EmptyString => EmptyString
  | String a s' =>
      match rstrip s' with
      | EmptyString => if isspace a then EmptyString else String a EmptyString
      | r => String a r
      end
  end.

(** [s.strip()] *)
Definition strip (s : string) : string := rstrip (lstrip s).

(** Split on runs of whitespace, as for the tokens of a [class] attribute. *)
Fixpoint words_aux (s : string) (cur : string) : list string :=
  match s with
  | EmptyString => if String.eqb cur "" then [] else [cur]
  | String a s' =>
      if isspace a
      then (if String.eqb cur "" then words_aux s' "" else cur :: words_aux s' "")
      else words_aux s' (cur +:+ String a EmptyString)
  end.

Definition words (s : string) : list string := words_aux s "".

End Str.

(** ** The document tree ([BeautifulSoup]) *)

Module Soup.

(** A page element: a tag with its attributes and contents, or a string. *)
#[warnings="-register-all"]
Inductive node : Type :=
  | Tag (name : string) (attrs : list (string * string)) (contents : list node)
  | NavigableString (s : string).

(** [tag.get(key)] *)
Fixpoint attr_get (attrs : list (string * string)) (key : string) : option string :=
  match attrs with
  | [] => None
  | (k, v) :: rest => if String.eqb k key then Some v else attr_get rest key
  end.

Definition attrs_of (n : node) : list (string * string) :=
  match n with
  | Tag _ a _ => a
  | NavigableString _ => []
  end.

(** [tag.get(key, default)] *)
Definition get (n : node) (key default : string) : string :=
  match attr_get (attrs_of n) key with
  | Some v => v
  | None => default
  end.

(** [tag.has_attr(key)] *)
Definition has_attr (n : node) (key : string) : bool :=
  match attr_get (attrs_of n) key with
  | Some _ => true
  | None => false
  end.

(** [tag[key]]: [KeyError] when the attribute is absent. *)
Definition getitem (n : node) (key : string) : result string :=
  match attr_get (attrs_of n) key with
  | Some v => Ok v
  | None => Raise (KeyError key)
  end.

(** [tag.descendants]: every element below the tag, in document order. *)
Fixpoint descendants (n : node) : list node :=
  match n with
  | NavigableString _ => []
  | Tag _ _ cs =>
      (fix go (l : list node) : list node :=
         match l with
         | [] => []
         | c :: l' => c :: descendants c ++ go l'
         end) cs
  end.

(** [tag.text]: the strings below the tag, concatenated. *)
Fixpoint text (n : node) : string :=
  match n with
  | NavigableString s => s
  | Tag _ _ cs =>
      (fix go (l : list node) : string :=
         match l with
         | [] => EmptyString
         | c :: l' => text c +:+ go l'
         end) cs
  end.

(** Does the element match a tag name and, when given, a class? *)
Definition matches (name : string) (class_ : option string) (n : node) : bool :=
  match n with
  | NavigableString _ => false
  | Tag nm attrs _ =>
      String.eqb nm name &&
      match class_ with
      | None => true
      | Some c =>
          match attr_get attrs "class" with
          | Some v => existsb (String.eqb c) (Str.words v)
          | None => false
          end
      end
  end.

(** [tag.find_all(name, class_=c)] *)
Definition find_all (n : node) (name : string) (class_ : option string) : list node :=
  List.filter (matches name class_) (descendants n).

(** [tag.find(name, class_=c)]: the first match, or [None]. *)
Definition find (n : node) (name : string) (class_ : option string) : option node :=
  head (find_all n name class_).

End Soup.

(** ** The [json] module, for lists of strings

    [json.dump] with its default settings ([ensure_ascii=True], separator
    [", "]) and [json.load] with the strict decoder, restricted to the
    documents the program writes and reads: arrays of strings. *)

Module Json.

Definition dquote : ascii := ascii_of_nat 34.
Definition backslash : ascii := ascii_of_nat 92.

Definition hex_digit (n : nat) : ascii :=
  if (n <? 10)%nat then ascii_of_nat (48 + n) else ascii_of_nat (87 + n).

(** [ESCAPE_DCT] and the [\uXXXX] fallback of [encode_basestring_ascii]. *)
Definition escape_char (c : ascii) : string :=
  let n := nat_of_ascii c in
  let esc (e : ascii) := String backslash (String e EmptyString) in
  if (n =? 34)%nat then esc dquote
  else if (n =? 92)%nat then esc backslash
  else if (n =? 8)%nat then esc "b"%char
  else if (n =? 12)%nat then esc "f"%char
  else if (n =? 10)%nat then esc "n"%char
  else if (n =? 13)%nat then esc "r"%char
  else if (n =? 9)%nat then esc "t"%char
  else if ((32 <=? n) && (n <=? 126))%nat then String c EmptyString
  else String backslash (String "u"%char (String "0"%char (String "0"%char
         (String (hex_digit (n / 16)) (String (hex_digit (n mod 16)) EmptyString))))).

Fixpoint escape (s : string) : string :=
  match s with
  | EmptyString => EmptyString
  | String c s' => escape_char c +:+ escape s'
  end.

Definition encode_basestring_ascii (s : string) : string :=
  String dquote (escape s +:+ String dquote EmptyString).

Fixpoint join_items (l : list string) : string :=
  match l with
  | [] => EmptyString
  | [x] => encode_basestring_ascii x
  | x :: l' => encode_basestring_ascii x +:+ ", " +:+ join_items l'
  end.

(** [json.dumps(l)] for a list of strings. *)
Definition dumps (l : list string) : string := "[" +:+ join_items l +:+ "]".

Definition is_whitespace (c : ascii) : bool :=
  let n := nat_of_ascii c in
  ((n =? 32) || (n =? 9) || (n =? 10) || (n =? 13))%nat.

Definition hex_value (c : ascii) : option nat :=
  let n := nat_of_ascii c in
  if ((48 <=? n) && (n <=? 57))%nat then Some (n - 48)
  else if ((97 <=? n) && (n <=? 102))%nat then Some (n - 87)
  else if ((65 <=? n) && (n <=? 70))%nat then Some (n - 55)
  else None.

Definition hex4 (h1 h2 h3 h4 : ascii) : option nat :=
  a ← hex_value h1; b ← hex_value h2; c ← hex_value h3; d ← hex_value h4;
  Some (((a * 16 + b) * 16 + c) * 16 + d).

(** The [BACKSLASH] table of the decoder. *)
Definition unescape (e : ascii) : option ascii :=
  let n := nat_of_ascii e in
  if (n =? 34)%nat then Some dquote
  else if (n =? 92)%nat then Some backslash
  else if (n =? 47)%nat then Some "/"%char
  else if (n =? 98)%nat then Some (ascii_of_nat 8)
  else if (n =? 102)%nat then Some (ascii_of_nat 12)
  else if (n =? 110)%nat then Some (ascii_of_nat 10)
  else if (n =? 114)%nat then Some (ascii_of_nat 13)
  else if (n =? 116)%nat then Some (ascii_of_nat 9)
  else None.

(** Where the decoder stands in an array of strings. *)
Inductive position : Type :=
  | AtStart                  (* before the opening bracket *)
  | AtFirst                  (* after the opening bracket *)
  | AtValue                  (* after a comma *)
  | InString (cur : string)  (* inside a string, [cur] decoded so far *)
  | AfterValue               (* after a string *)
  | AtEnd.                   (* after the closing bracket *)

(** A character that starts a JSON value other than a string, or a string
    where the document itself should start. *)
Definition starts_other_value (c : ascii) : bool :=
  let n := nat_of_ascii c in
  ((n =? 34) || (n =? 91) || (n =? 123) || (n =? 45)
   || ((48 <=? n) && (n <=? 57))
   || (n =? 116) || (n =? 102) || (n =? 110) || (n =? 78) || (n =? 73))%nat.

Definition no_value (c : ascii) : Py.result (list string) :=
  if starts_other_value c then Raise (NotModelled "a JSON value that is not a string")
  else Raise (JSONDecodeError "Expecting value").

Fixpoint scan (st : position) (acc : list string) (s : string) {struct s}
  : Py.result (list string) :=
  match s with
  | EmptyString =>
      match st with
      | AtEnd => Ok acc
      | InString _ => Raise (JSONDecodeError "Unterminated string starting at")
      | AfterValue => Raise (JSONDecodeError "Expecting ',' delimiter")
      | _ => Raise (JSONDecodeError "Expecting value")
      end
  | String c s' =>
      match st with
      | AtStart =>
          if is_whitespace c then scan AtStart acc s'
          else if Ascii.eqb c "["%char then scan AtFirst acc s'
          else no_value c
      | AtFirst =>
          if is_whitespace c then scan AtFirst acc s'
          else if Ascii.eqb c "]"%char then scan AtEnd acc s'
          else if Ascii.eqb c dquote then scan (InString EmptyString) acc s'
          else no_value c
      | AtValue =>
          if is_whitespace c then scan AtValue acc s'
          else if Ascii.eqb c dquote then scan (InString EmptyString) acc s'
          else no_value c
      | InString cur =>
          if Ascii.eqb c dquote then scan AfterValue (acc ++ [cur]) s'
          else if Ascii.eqb c backslash then
            match s' with
            | EmptyString => Raise (JSONDecodeError "Unterminated string starting at")
            | String e s'' =>
                if Ascii.eqb e "u"%char then
                  match s'' with
                  | String h1 (String h2 (String h3 (String h4 s3))) =>
                      match hex4 h1 h2 h3 h4 with
                      | Some v =>
                          if (v <? 256)%nat
                          then scan (InString (cur +:+ String (ascii_of_nat v) EmptyString)) acc s3
                          else Raise (NotModelled "a code point above 255")
                      | None => Raise (JSONDecodeError "Invalid \uXXXX escape")
                      end
                  | _ => Raise (JSONDecodeError "Invalid \uXXXX escape")
                  end
                else
                  match unescape e with
                  | Some ch => scan (InString (cur +:+ String ch EmptyString)) acc s''
                  | None => Raise (JSONDecodeError "Invalid \escape")
                  end
            end
          else if (nat_of_ascii c <? 32)%nat
          then Raise (JSONDecodeError "Invalid control character at")
          else scan (InString (cur +:+ String c EmptyString)) acc s'
      | AfterValue =>
          if is_whitespace c then scan AfterValue acc s'
          else if Ascii.eqb c ","%char then scan AtValue acc s'
          else if Ascii.eqb c "]"%char then scan AtEnd acc s'
          else Raise (JSONDecodeError "Expecting ',' delimiter")
      | AtEnd =>
          if is_whitespace c then scan AtEnd acc s'
          else Raise (JSONDecodeError "Extra data")
      end
  end.

(** [json.loads(s)] for a document that is an array of strings. *)
Definition loads (s : string) : Py.result (list string) := scan AtStart [] s.

End Json.

(** ** What the program takes from outside

    Library functions whose code is not part of the program, and the
    environment the process runs in. Instants are microseconds since the
    epoch; the oracles of the environment are indexed by the number of
    external calls made so far, so that two calls may answer differently. *)

(** What [yaml.safe_load] makes of [searches.yml]. The values of a mapping
    are taken to be strings. *)
Inductive yaml_item : Type :=
  | ItemDict (entries : list (string * string))
  | ItemOther.

Inductive yaml_doc : Type :=
  | DocList (items : list yaml_item)
  | DocOther.

(** What opening and loading [searches.yml] comes to: the file is not
    there; [open] or the read fails with another [OSError]
    ([PermissionError], [IsADirectoryError], ...); the bytes are not text
    ([UnicodeDecodeError]); the text is not YAML; or a document. *)
Inductive yaml_file : Type :=
  | NoFile
  | Unreadable (msg : string)
  | NotUnicode (msg : string)
  | Malformed (msg : string)
  | Parsed (doc : yaml_doc).

Record World : Type := {
  (** [datetime.fromisoformat(s).replace(tzinfo=pytz.UTC)]; [None] stands
      for the [ValueError] of a string that is not ISO-8601. *)
  fromisoformat_utc : string → option Z;
  (** [humanize.naturaltime(delta)] *)
  naturaltime : Z → string;
  (** [t.astimezone(pytz.timezone('America/New_York')).isoformat()], for
      the instants the conversion can display (see [displayable]); the
      [OverflowError] it raises at the very start of the range of
      [datetime] is not modelled. *)
  isoformat_new_york : Z → string;
  (** [str(t.astimezone(pytz.timezone('America/New_York')))] *)
  str_new_york : Z → string;
  (** [datetime.now(pytz.utc)] *)
  clock : nat → Z;
  (** The file [searches.yml] *)
  searches_yml : yaml_file;
  (** [os.environ.get("PUSHBULLET_API_KEY")] *)
  environ_PUSHBULLET_API_KEY : option string;
  (** The GET of the search page and the parse of its text by
      [BeautifulSoup]: the parsed page, or the message of the
      [requests.RequestException]. Markup that the parser rejects
      ([ParserRejectedMarkup]) is not modelled. *)
  http_get_search : nat → string → string → string + Soup.node;
  (** The POST to the push channel with (api key, title, body): [None] on
      success, or the message of the [requests.RequestException]. *)
  http_post_push : nat → string → string → string → option string
}.

(** ** [parse_reddit_search_results] *)

(** One entry of the list the parser returns (a dict with these keys). *)
Record post : Type := {
  post_id : string;
  post_title : string;
  post_author : string;
  post_link : string;
  post_time : option Z
}.

Definition origin : string := "https://www.reddit.com".

Definition fromisoformat (w : World) (s : string) : result Z :=
  match fromisoformat_utc w s with
  | Some t => Ok t
  | None => Raise (ValueError ("Invalid isoformat string: " +:+ s))
  end.

(** The body of the loop over the search results. *)
Definition parse_search_result (w : World) (result : Soup.node) : Py.result post :=
  id ← Str.getitem_last (Str.split "_" (Soup.get result "data-fullname" ""));
  let title_element := Soup.find result "a" (Some "search-title") in
  let title :=
    match title_element with
    | Some e => Str.strip (Soup.text e)
    | None => "No title found"
    end in
  let author_element := Soup.find result "a" (Some "author") in
  let author :=
    match author_element with
    | Some e => Soup.text e
    | None => "Unknown"
    end in
  link ← match title_element with
         | Some e => if Soup.has_attr e "href" then Soup.getitem e "href" else Ok ""
         | None => Ok ""
         end;
  let link := if Str.startswith_char "/" link then origin +:+ link else link in
  let time_element := Soup.find result "time" None in
  time ← match time_element with
         | Some e =>
             if Soup.has_attr e "datetime" then
               time_str ← Soup.getitem e "datetime";
               try_except_ValueError
                 (t ← fromisoformat w time_str; Ok (Some t))
                 (Ok None)
             else Ok None
         | None => Ok None
         end;
  Ok {| post_id := id; post_title := title; post_author := author;
        post_link := link; post_time := time |}.

(** The loop: one record appended per search result, in document order. *)
Fixpoint parse_loop (w : World) (search_results : list Soup.node) : Py.result (list post) :=
  match search_results with
  | [] => Ok []
  | result :: rest =>
      post_data ← parse_search_result w result;
      results ← parse_loop w rest;
      Ok (post_data :: results)
  end.

Definition search_result_nodes (soup : Soup.node) : list Soup.node :=
  Soup.find_all soup "div" (Some "search-result-link").

Definition parse_reddit_search_results (w : World) (soup : Soup.node) : Py.result (list post) :=
  parse_loop w (search_result_nodes soup).

(** ** Process state and effects *)

(** What the process does to the outside, in order. *)
Inductive event : Type :=
  | Print (line : string)
  | Post (title body : string) (failure : option string)
  | Sleep (seconds : nat).

(** The mutable objects of the process: the set bound to [notified_ids] in
    [main] (one object, shared with every call of
    [send_reddit_notifications]), the file [notified_ids.json], the trace
    of events and the number of external calls made. *)
Record state : Type := {
  notified_ids : gset string;
  notified_ids_json : option string;
  trace : list event;
  calls : nat
}.

(** A command returns a value or raises, and leaves a state either way. *)
Definition M (A : Type) : Type := state → Py.result A * state.

#[export] Instance M_ret : MRet M := fun _ a s => (Ok a, s).

#[export] Instance M_bind : MBind M := fun _ _ k m s =>
  match m s with
  | (Ok a, s') => k a s'
  | (Raise e, s') => (Raise e, s')
  end.

Definition raise {A} (e : exn) : M A := fun s => (Raise e, s).

Definition lift {A} (r : Py.result A) : M A := fun s => (r, s).

(** [try: m  except Exception as e: h e] *)
Definition try_except_Exception {A} (m : M A) (h : exn → M A) : M A := fun s =>
  match m s with
  | (Ok a, s') => (Ok a, s')
  | (Raise e, s') => h e s'
  end.

Definition emit (e : event) : M unit := fun s =>
  (Ok tt, {| notified_ids := notified_ids s;
             notified_ids_json := notified_ids_json s;
             trace := trace s ++ [e];
             calls := calls s |}).

Definition print (line : string) : M unit := emit (Print line).

Definition sleep (seconds : nat) : M unit := emit (Sleep seconds).

(** Take the index of the next external call. *)
Definition tick : M nat := fun s =>
  (Ok (calls s), {| notified_ids := notified_ids s;
                    notified_ids_json := notified_ids_json s;
                    trace := trace s;
                    calls := S (calls s) |}).

Definition get_notified_ids : M (gset string) := fun s => (Ok (notified_ids s), s).

(** [notified_ids.add(x)] *)
Definition notified_ids_add (x : string) : M unit := fun s =>
  (Ok tt, {| notified_ids := {[x]} ∪ notified_ids s;
             notified_ids_json := notified_ids_json s;
             trace := trace s;
             calls := calls s |}).

(** [datetime.now(pytz.utc)] *)
Definition datetime_now (w : World) : M Z :=
  n ← tick; mret (clock w n).

(** ** [download_reddit_search] and [fetch_and_parse_reddit_search] *)

Definition download_reddit_search (w : World) (subreddit search_query : string)
  : M (option Soup.node) :=
  n ← tick;
  match http_get_search w n subreddit search_query with
  | inr soup => mret (Some soup)
  | inl e =>
      print ("An error occurred while fetching the URL: " +:+ e);;
      mret None
  end.

Definition fetch_and_parse_reddit_search (w : World) (subreddit search_query : string)
  : M (list post) :=
  soup ← download_reddit_search w subreddit search_query;
  match soup with
  | Some soup => lift (parse_reddit_search_results w soup)
  | None => mret []
  end.

(** ** [send_pushbullet_notification] *)

Definition missing_key_message : string :=
  "PUSHBULLET_API_KEY environment variable is not set".

(** [requests.post(...)] followed by [raise_for_status()]. *)
Definition requests_post (w : World) (api_key title body : string) : M (option string) :=
  n ← tick;
  let r := http_post_push w n api_key title body in
  emit (Post title body r);;
  mret r.

Definition send_pushbullet_notification (w : World) (title body : string) : M unit :=
  match environ_PUSHBULLET_API_KEY w with
  | None | Some EmptyString => raise (ValueError missing_key_message)
  | Some api_key =>
      r ← requests_post w api_key title body;
      match r with
      | None => print "Notification sent successfully!"
      | Some e => print ("Failed to send notification: " +:+ e)
      end
  end.

(** ** [send_reddit_notifications] *)

(** [now - post["time"]] *)
Definition datetime_sub (now : Z) (t : option Z) : Py.result Z :=
  match t with
  | Some t => Ok (now - t)%Z
  | None =>
      Raise (TypeError
        "unsupported operand type(s) for -: 'datetime.datetime' and 'NoneType'")
  end.

(** [post["time"].astimezone(...).isoformat()] *)
Definition time_isoformat (w : World) (t : option Z) : Py.result string :=
  match t with
  | Some t => Ok (isoformat_new_york w t)
  | None => Raise (AttributeError "'NoneType' object has no attribute 'astimezone'")
  end.

Definition nl : string := String (ascii_of_nat 10) EmptyString.

Definition notification_title (w : World) (subreddit : string) (p : post) (time_diff : Z)
  : string :=
  "New post in r/" +:+ subreddit +:+ " by " +:+ post_author p +:+ " "
  +:+ naturaltime w time_diff.

Definition notification_body (p : post) (time : string) : string :=
  "Title: " +:+ post_title p +:+ nl +:+
  "Author: " +:+ post_author p +:+ nl +:+
  "Time: " +:+ time +:+ nl +:+
  "Link: " +:+ post_link p.

(** The branch taken for a post whose id is not in the set. *)
Definition notify_new_post (w : World) (subreddit : string) (p : post) : M unit :=
  now ← datetime_now w;
  time_diff ← lift (datetime_sub now (post_time p));
  let title := notification_title w subreddit p time_diff in
  time ← lift (time_isoformat w (post_time p));
  let body := notification_body p time in
  send_pushbullet_notification w title body;;
  notified_ids_add (post_id p).

(** The loop over the posts, carrying [notified_cnt]. *)
Fixpoint notify_loop (w : World) (subreddit : string) (posts : list post)
    (notified_cnt : nat) : M nat :=
  match posts with
  | [] => mret notified_cnt
  | p :: rest =>
      ids ← get_notified_ids;
      if decide (post_id p ∈ ids) then notify_loop w subreddit rest notified_cnt
      else
        notify_new_post w subreddit p;;
        notify_loop w subreddit rest (S notified_cnt)
  end.

Definition summary_line (total new : nat) : string :=
  "Checked for new posts. Total posts: " +:+ pretty total +:+
  ", new posts: " +:+ pretty new.

Definition send_reddit_notifications (w : World) (subreddit search_query : string)
  : M unit :=
  posts ← fetch_and_parse_reddit_search w subreddit search_query;
  notified_cnt ← notify_loop w subreddit posts 0;
  print (summary_line (length posts) notified_cnt).

(** ** [load_search_config] *)

Record search_config : Type := {
  subreddit : string;
  search_query : string
}.

Definition not_a_list_message : string :=
  "YAML file should contain a list of subreddit-search pairs".

Definition bad_item_message : string :=
  "Each item in the YAML file should be a dictionary with 'subreddit' and 'search_query' keys".

Fixpoint load_items (config : list yaml_item) : Py.result (list search_config) :=
  match config with
  | [] => Ok []
  | item :: rest =>
      match item with
      | ItemDict entries =>
          match Soup.attr_get entries "subreddit", Soup.attr_get entries "search_query" with
          | Some sr, Some q =>
              search_configs ← load_items rest;
              Ok ({| subreddit := sr; search_query := q |} :: search_configs)
          | _, _ => Raise (ValueError bad_item_message)
          end
      | ItemOther => Raise (ValueError bad_item_message)
      end
  end.

(** [str(e)] of the [FileNotFoundError] that [open] raises. *)
Definition no_such_file_message (file_path : string) : string :=
  "[Errno 2] No such file or directory: '" +:+ file_path +:+ "'".

Definition load_search_config (w : World) (file_path : string) : M (list search_config) :=
  match searches_yml w with
  | NoFile =>
      print ("Config file not found: " +:+ file_path);;
      raise (FileNotFoundError (no_such_file_message file_path))
  | Unreadable e =>
      (* no [except] clause for it: nothing is printed *)
      raise (OSError e)
  | NotUnicode e =>
      (* caught by [except ValueError] *)
      print ("Invalid YAML format: " +:+ e);;
      raise (UnicodeDecodeError e)
  | Malformed e =>
      print ("Error parsing YAML file: " +:+ e);;
      raise (YAMLError e)
  | Parsed DocOther =>
      print ("Invalid YAML format: " +:+ not_a_list_message);;
      raise (ValueError not_a_list_message)
  | Parsed (DocList config) =>
      match load_items config with
      | Ok search_configs => mret search_configs
      | Raise e =>
          print ("Invalid YAML format: " +:+ str_exn e);;
          raise e
      end
  end.

(** ** [main] *)

Definition set_notified_ids (ids : gset string) : M unit := fun s =>
  (Ok tt, {| notified_ids := ids;
             notified_ids_json := notified_ids_json s;
             trace := trace s;
             calls := calls s |}).

(** [with open(notified_ids_fname, "w") as f: f.write(text)]; the write
    is taken to succeed (a disk that refuses it is not modelled). *)
Definition write_notified_ids_json (text : string) : M unit := fun s =>
  (Ok tt, {| notified_ids := notified_ids s;
             notified_ids_json := Some text;
             trace := trace s;
             calls := calls s |}).

(** Lines 217-221: the set is read from the file, or empty without one. *)
Definition load_notified_ids : M unit := fun s =>
  match notified_ids_json s with
  | None => set_notified_ids ∅ s
  | Some text =>
      match Json.loads text with
      | Ok l => set_notified_ids (list_to_set l) s
      | Raise e => (Raise e, s)
      end
  end.

(** Lines 238-239: [json.dump(list(notified_ids), f)]. *)
Definition save_notified_ids : M unit :=
  ids ← get_notified_ids;
  write_notified_ids_json (Json.dumps (elements ids)).

(** The [for] loop over the configured searches. *)
Fixpoint search_loop (w : World) (cfg : list search_config) : M unit :=
  match cfg with
  | [] => mret tt
  | c :: rest =>
      print ("Searching in r/" +:+ subreddit c +:+ " for '" +:+ search_query c +:+ "'");;
      send_reddit_notifications w (subreddit c) (search_query c);;
      sleep 10;;
      search_loop w rest
  end.

(** One turn of the [while True] loop. *)
Definition pass (w : World) (cfg : list search_config) : M unit :=
  n ← tick;
  print ("Searching at " +:+ str_new_york w (clock w n));;
  try_except_Exception
    (search_loop w cfg;; save_notified_ids)
    (fun e => print ("An error occurred: " +:+ str_exn e));;
  print "Sleeping for 5 minutes...";;
  sleep 300.

(** What [main] does before the loop. *)
Definition startup (w : World) : M (list search_config) :=
  cfg ← load_search_config w "searches.yml";
  load_notified_ids;;
  mret cfg.

Fixpoint passes (w : World) (cfg : list search_config) (n : nat) : M unit :=
  match n with
  | O => mret tt
  | S n' => pass w cfg;; passes w cfg n'
  end.

(** [main], observed for its first [n] turns of the loop. *)
Definition main (w : World) (n : nat) : M unit :=
  cfg ← startup w;
  passes w cfg n.

(** The process as it starts: nothing printed, no call made, and the file
    of notified ids as found on disk. *)
Definition initial_state (file : option string) : state :=
  {| notified_ids := ∅; notified_ids_json := file; trace := []; calls := 0 |}.

(** * Properties *)

(** ** The parser *)

Section Parser.

Context (w : World).

Lemma split_not_nil sep s : Str.split sep s ≠ [].
Proof.
  destruct s as [|a s]; simpl; [discriminate|].
  destruct (Ascii.eqb a sep); [discriminate|].
  destruct (Str.split sep s); discriminate.
Qed.

Lemma getitem_last_returns {A} (l : list A) :
  l ≠ [] → ∃ x, Str.getitem_last l = Ok x.
Proof.
  induction l as [|a l IH]; [congruence|]. intros _.
  destruct l as [|b l]; [by exists a|].
  destruct IH as [x Hx]; [discriminate|]. by exists x.
Qed.

Lemma has_attr_getitem n key :
  Soup.has_attr n key = true →
  ∃ v, Soup.attr_get (Soup.attrs_of n) key = Some v ∧ Soup.getitem n key = Ok v.
Proof.
  unfold Soup.has_attr, Soup.getitem.
  destruct (Soup.attr_get (Soup.attrs_of n) key) as [v|]; [|discriminate].
  intros _. by exists v.
Qed.

(** What a record owes to the search result it was read from, field by
    field. *)
Record extracted (result : Soup.node) (r : post) : Prop := {
  ex_id :
    Str.getitem_last (Str.split "_" (Soup.get result "data-fullname" "")) = Ok (post_id r);
  ex_title_missing :
    Soup.find result "a" (Some "search-title") = None →
    post_title r = "No title found";
  ex_title_found : ∀ e,
    Soup.find result "a" (Some "search-title") = Some e →
    post_title r = Str.strip (Soup.text e);
  ex_author_missing :
    Soup.find result "a" (Some "author") = None → post_author r = "Unknown";
  ex_author_found : ∀ e,
    Soup.find result "a" (Some "author") = Some e → post_author r = Soup.text e;
  ex_link_no_title :
    Soup.find result "a" (Some "search-title") = None → post_link r = "";
  ex_link_no_href : ∀ e,
    Soup.find result "a" (Some "search-title") = Some e →
    Soup.attr_get (Soup.attrs_of e) "href" = None → post_link r = "";
  ex_link_relative : ∀ e href,
    Soup.find result "a" (Some "search-title") = Some e →
    Soup.attr_get (Soup.attrs_of e) "href" = Some href →
    Str.startswith_char "/" href = true →
    post_link r = "https://www.reddit.com" +:+ href;
  ex_link_absolute : ∀ e href,
    Soup.find result "a" (Some "search-title") = Some e →
    Soup.attr_get (Soup.attrs_of e) "href" = Some href →
    Str.startswith_char "/" href = false →
    post_link r = href;
  ex_time_no_element :
    Soup.find result "time" None = None → post_time r = None;
  ex_time_no_attr : ∀ e,
    Soup.find result "time" None = Some e →
    Soup.attr_get (Soup.attrs_of e) "datetime" = None → post_time r = None;
  ex_time_attr : ∀ e time_str,
    Soup.find result "time" None = Some e →
    Soup.attr_get (Soup.attrs_of e) "datetime" = Some time_str →
    post_time r = fromisoformat_utc w time_str
}.

Lemma parse_search_result_returns result :
  ∃ r, parse_search_result w result = Ok r ∧ extracted result r.
Proof.
  unfold parse_search_result.
  destruct (getitem_last_returns (Str.split "_" (Soup.get result "data-fullname" "")))
    as [id Hid]; [apply split_not_nil|].
  rewrite Hid; simpl.
  unfold Soup.has_attr, Soup.getitem, fromisoformat.
  destruct (Soup.find result "a" (Some "search-title")) as [te|] eqn:Ht;
  destruct (Soup.find result "a" (Some "author")) as [ae|] eqn:Ha;
  destruct (Soup.find result "time" None) as [me|] eqn:Hm; simpl.
  all: repeat
    match goal with
    | |- context [Soup.attr_get ?a ?k] =>
        let H := fresh "Hattr" in destruct (Soup.attr_get a k) eqn:H; simpl
    | |- context [fromisoformat_utc w ?x] =>
        let H := fresh "Hiso" in destruct (fromisoformat_utc w x) eqn:H; simpl
    | |- context [Str.startswith_char ?c ?x] =>
        let H := fresh "Hrel" in destruct (Str.startswith_char c x) eqn:H; simpl
    end.
  all: eexists; split; [reflexivity|]; split; simpl; intros; simplify_eq;
    first [done | congruence].
Qed.

Lemma parse_loop_returns nodes :
  ∃ results, parse_loop w nodes = Ok results ∧ Forall2 extracted nodes results.
Proof.
  induction nodes as [|n nodes [results [Hl HF]]]; simpl.
  - exists []. by split.
  - destruct (parse_search_result_returns n) as [r [Hr He]].
    rewrite Hr; simpl. rewrite Hl; simpl.
    exists (r :: results). split; [done|by constructor].
Qed.

(** C6. For every document, [parse_reddit_search_results] returns (it raises
    nothing), with one record per search-result node in document order,
    hence the empty list when there is no such node; in each record a
    missing title element gives the title "No title found" and the link "",
    a missing author element gives "Unknown", a missing href gives the link
    "", a link beginning with "/" is prefixed by "https://www.reddit.com",
    and a missing time element, a missing datetime attribute or a
    timestamp that is not ISO-8601 gives the time None. *)
Theorem parse_reddit_search_results_total (soup : Soup.node) :
  ∃ results,
    parse_reddit_search_results w soup = Ok results ∧
    length results = length (search_result_nodes soup) ∧
    Forall2 extracted (search_result_nodes soup) results ∧
    (search_result_nodes soup = [] → results = []).
Proof.
  unfold parse_reddit_search_results.
  destruct (parse_loop_returns (search_result_nodes soup)) as [results [Hl HF]].
  exists results. split; [done|]. split; [|split; [done|]].
  - symmetry. by eapply Forall2_length.
  - intros Hnil. rewrite Hnil in HF. by inversion HF.
Qed.

End Parser.

(** ** The push channel and the loop over the posts *)

(** The posts a call treats as new, from the words of the program's
    comments ("check for new posts"): a post is new when its id is neither
    in the set the call started with nor the id of an earlier post of the
    same list. *)
Fixpoint new_posts (ids : gset string) (posts : list post) : list post :=
  match posts with
  | [] => []
  | p :: rest =>
      if decide (post_id p ∈ ids) then new_posts ids rest
      else p :: new_posts ({[post_id p]} ∪ ids) rest
  end.

Definition is_Post (ev : event) : bool :=
  match ev with
  | Post _ _ _ => true
  | _ => false
  end.

(** The requests made to the push channel, in order. *)
Definition pushes (tr : list event) : list event := List.filter is_Post tr.

(** [ev] is a request to the push channel made for the post [p]. *)
Definition push_of (w : World) (subreddit : string) (p : post) (ev : event) : Prop :=
  ∃ time_diff t failure,
    post_time p = Some t ∧
    ev = Post (notification_title w subreddit p time_diff)
              (notification_body p (isoformat_new_york w t)) failure.

(** A credential the program accepts: set, and not the empty string. *)
Definition credential (w : World) (k : string) : Prop :=
  environ_PUSHBULLET_API_KEY w = Some k ∧ k ≠ "".

Definition no_credential (w : World) : Prop :=
  environ_PUSHBULLET_API_KEY w = None ∨ environ_PUSHBULLET_API_KEY w = Some "".

Definition delivery_line (failure : option string) : string :=
  match failure with
  | None => "Notification sent successfully!"
  | Some e => "Failed to send notification: " +:+ e
  end.

Definition no_time_message : string :=
  "unsupported operand type(s) for -: 'datetime.datetime' and 'NoneType'".

Ltac unfold_M :=
  unfold mbind, M_bind, mret, M_ret, lift, raise, print, sleep, emit, tick,
    get_notified_ids, notified_ids_add, datetime_now, try_except_Exception,
    set_notified_ids, write_notified_ids_json in *.

Section Notify.

Context (w : World).

Lemma pushes_app tr1 tr2 : pushes (tr1 ++ tr2) = pushes tr1 ++ pushes tr2.
Proof. unfold pushes. by rewrite List.filter_app. Qed.

Lemma credential_or_not : (∃ k, credential w k) ∨ no_credential w.
Proof.
  unfold credential, no_credential.
  destruct (environ_PUSHBULLET_API_KEY w) as [[|a k]|];
    [by right; right | left; by exists (String a k) | by right; left].
Qed.

Lemma send_pushbullet_notification_no_credential title body s :
  no_credential w →
  send_pushbullet_notification w title body s = (Raise (ValueError missing_key_message), s).
Proof. unfold send_pushbullet_notification. by intros [-> | ->]. Qed.

Lemma send_pushbullet_notification_credential k title body s :
  credential w k →
  send_pushbullet_notification w title body s =
  let failure := http_post_push w (calls s) k title body in
  (Ok tt, {| notified_ids := notified_ids s;
             notified_ids_json := notified_ids_json s;
             trace := trace s ++ [Post title body failure; Print (delivery_line failure)];
             calls := S (calls s) |}).
Proof.
  intros [Hk Hne]. unfold send_pushbullet_notification. rewrite Hk.
  destruct k as [|a k]; [done|]. unfold requests_post. unfold_M. simpl.
  destruct (http_post_push w (calls s) (String a k) title body); simpl;
    by rewrite <- app_assoc.
Qed.

(** A new post without a time: the subtraction raises, after the clock
    was read and before anything is sent or added. *)
Lemma notify_new_post_no_time sr p s :
  post_time p = None →
  notify_new_post w sr p s =
  (Raise (TypeError no_time_message),
   {| notified_ids := notified_ids s;
      notified_ids_json := notified_ids_json s;
      trace := trace s;
      calls := S (calls s) |}).
Proof. intros Ht. unfold notify_new_post. unfold_M. simpl. by rewrite Ht. Qed.

Lemma notify_new_post_no_credential sr p t s :
  post_time p = Some t → no_credential w →
  notify_new_post w sr p s =
  (Raise (ValueError missing_key_message),
   {| notified_ids := notified_ids s;
      notified_ids_json := notified_ids_json s;
      trace := trace s;
      calls := S (calls s) |}).
Proof.
  intros Ht Hno. unfold notify_new_post. unfold_M. simpl. rewrite Ht. simpl.
  by rewrite send_pushbullet_notification_no_credential.
Qed.

Lemma notify_new_post_sent sr p t k s :
  post_time p = Some t → credential w k →
  notify_new_post w sr p s =
  let title := notification_title w sr p (clock w (calls s) - t) in
  let body := notification_body p (isoformat_new_york w t) in
  let failure := http_post_push w (S (calls s)) k title body in
  (Ok tt, {| notified_ids := {[post_id p]} ∪ notified_ids s;
             notified_ids_json := notified_ids_json s;
             trace := trace s ++ [Post title body failure; Print (delivery_line failure)];
             calls := S (S (calls s)) |}).
Proof.
  intros Ht Hk. unfold notify_new_post. unfold_M. simpl. rewrite Ht. simpl.
  by rewrite (send_pushbullet_notification_credential k).
Qed.

(** The three ways the branch for a new post can end. *)
Lemma notify_new_post_cases sr p s :
  (∃ e, notify_new_post w sr p s =
        (Raise e, {| notified_ids := notified_ids s;
                     notified_ids_json := notified_ids_json s;
                     trace := trace s;
                     calls := S (calls s) |}) ∧
        (post_time p = None ∨ no_credential w)) ∨
  (∃ t k ev line,
      post_time p = Some t ∧ credential w k ∧ push_of w sr p ev ∧
      notify_new_post w sr p s =
      (Ok tt, {| notified_ids := {[post_id p]} ∪ notified_ids s;
                 notified_ids_json := notified_ids_json s;
                 trace := trace s ++ [ev; Print line];
                 calls := S (S (calls s)) |})).
Proof.
  destruct (post_time p) as [t|] eqn:Ht.
  - destruct credential_or_not as [[k Hk]|Hno].
    + right. rewrite (notify_new_post_sent sr p t k s Ht Hk).
      do 4 eexists. split; [done|]. split; [done|]. split; [|reflexivity].
      unfold push_of. by eauto.
    + left. eexists. split; [by apply (notify_new_post_no_credential sr p t)|by right].
  - left. eexists. split; [by apply notify_new_post_no_time|by left].
Qed.

Lemma notify_loop_skip sr p rest cnt s :
  post_id p ∈ notified_ids s →
  notify_loop w sr (p :: rest) cnt s = notify_loop w sr rest cnt s.
Proof. intros Hin. simpl. unfold_M. by rewrite decide_True. Qed.

Lemma notify_loop_new sr p rest cnt s :
  post_id p ∉ notified_ids s →
  notify_loop w sr (p :: rest) cnt s =
  match notify_new_post w sr p s with
  | (Ok _, s') => notify_loop w sr rest (S cnt) s'
  | (Raise e, s') => (Raise e, s')
  end.
Proof. intros Hin. simpl. unfold_M. by rewrite decide_False. Qed.

(** Whatever the outcome, the loop only adds ids, only appends events and
    leaves the file alone. *)
Lemma notify_loop_frame sr posts : ∀ cnt s r s',
  notify_loop w sr posts cnt s = (r, s') →
  notified_ids s ⊆ notified_ids s' ∧
  notified_ids_json s' = notified_ids_json s ∧
  ∃ evs, trace s' = trace s ++ evs.
Proof.
  induction posts as [|p rest IH]; intros cnt s r s' Hrun.
  - simpl in Hrun. unfold_M. simplify_eq. split; [done|]. split; [done|].
    exists []. by rewrite app_nil_r.
  - destruct (decide (post_id p ∈ notified_ids s)) as [Hin|Hin].
    + rewrite notify_loop_skip in Hrun by done. by eapply IH.
    + rewrite notify_loop_new in Hrun by done.
      destruct (notify_new_post_cases sr p s)
        as [[e [Hr _]]|[t [k [ev [line [_ [_ [_ Hr]]]]]]]]; rewrite Hr in Hrun.
      * simplify_eq. simpl. split; [done|]. split; [done|].
        exists []. by rewrite app_nil_r.
      * apply IH in Hrun as [Hsub [Hfile [evs Htr]]]. simpl in *.
        split; [set_solver|]. split; [done|].
        exists ([ev; Print line] ++ evs). by rewrite Htr, <- app_assoc.
Qed.

(** When the loop returns, it has gone through the new posts, one request
    to the push channel each. *)
Lemma notify_loop_returns sr posts : ∀ cnt s n s',
  notify_loop w sr posts cnt s = (Ok n, s') →
  n = cnt + length (new_posts (notified_ids s) posts) ∧
  notified_ids s' =
    notified_ids s ∪ list_to_set (post_id <$> new_posts (notified_ids s) posts) ∧
  calls s' = 2 * length (new_posts (notified_ids s) posts) + calls s ∧
  ∃ evs, trace s' = trace s ++ evs ∧
         Forall2 (push_of w sr) (new_posts (notified_ids s) posts) (pushes evs).
Proof.
  induction posts as [|p rest IH]; intros cnt s n s' Hrun.
  - simpl in Hrun. unfold_M. simplify_eq. simpl.
    split; [lia|]. split; [set_solver|]. split; [done|].
    exists []. split; [by rewrite app_nil_r|constructor].
  - destruct (decide (post_id p ∈ notified_ids s)) as [Hin|Hin].
    + rewrite notify_loop_skip in Hrun by done.
      simpl. rewrite decide_True by done. by eapply IH.
    + rewrite notify_loop_new in Hrun by done.
      simpl. rewrite decide_False by done.
      destruct (notify_new_post_cases sr p s)
        as [[e [Hr _]]|[t [k [ev [line [_ [_ [Hev Hr]]]]]]]]; rewrite Hr in Hrun;
        [discriminate|].
      apply IH in Hrun as [Hn [Hids [Hcalls [evs [Htr HF]]]]]. simpl in *.
      split; [lia|]. split; [rewrite Hids; set_solver|]. split; [lia|].
      exists ([ev; Print line] ++ evs). split; [by rewrite Htr, <- app_assoc|].
      rewrite pushes_app.
      assert (pushes [ev; Print line] = [ev]) as ->.
      { destruct Hev as [d [t' [f [_ ->]]]]. reflexivity. }
      by constructor.
Qed.

(** A list of posts whose ids are all in the set is passed over. *)
Lemma notify_loop_all_known sr posts : ∀ cnt s,
  Forall (λ p, post_id p ∈ notified_ids s) posts →
  notify_loop w sr posts cnt s = (Ok cnt, s).
Proof.
  induction posts as [|p rest IH]; intros cnt s Hall; [done|].
  inversion Hall; subst. rewrite notify_loop_skip by done. by apply IH.
Qed.

Lemma new_posts_ids posts : ∀ ids,
  ids ∪ list_to_set (post_id <$> new_posts ids posts)
  = ids ∪ list_to_set (post_id <$> posts).
Proof.
  induction posts as [|p rest IH]; intros ids; [done|]. simpl.
  destruct (decide (post_id p ∈ ids)) as [Hin|Hin].
  - rewrite IH. set_solver.
  - simpl. specialize (IH ({[post_id p]} ∪ ids)). set_solver.
Qed.

Lemma new_posts_all_known posts ids :
  Forall (λ p, post_id p ∈ ids) posts → new_posts ids posts = [].
Proof.
  induction 1 as [|p rest Hp _ IH]; [done|]. simpl. by rewrite decide_True.
Qed.

(** After a loop that returned, every post of the list is known. *)
Lemma notify_loop_returns_known sr posts cnt s n s' :
  notify_loop w sr posts cnt s = (Ok n, s') →
  Forall (λ p, post_id p ∈ notified_ids s') posts.
Proof.
  intros Hrun. apply notify_loop_returns in Hrun as [_ [Hids _]].
  rewrite new_posts_ids in Hids. rewrite Hids.
  apply Forall_forall. intros p Hp.
  apply elem_of_union_r, elem_of_list_to_set, list_elem_of_fmap. eauto.
Qed.


(** With a credential, a new post without a time makes the loop raise
    [TypeError]. *)
Lemma notify_loop_no_time sr k posts : ∀ cnt s,
  credential w k →
  Exists (λ p, post_time p = None) (new_posts (notified_ids s) posts) →
  ∃ s', notify_loop w sr posts cnt s = (Raise (TypeError no_time_message), s').
Proof.
  induction posts as [|p rest IH]; intros cnt s Hk Hex; [by inversion Hex|].
  simpl in Hex. destruct (decide (post_id p ∈ notified_ids s)) as [Hin|Hin].
  - rewrite notify_loop_skip by done. by apply IH.
  - rewrite notify_loop_new by done.
    destruct (post_time p) as [t|] eqn:Ht.
    + rewrite (notify_new_post_sent sr p t k s Ht Hk). cbv zeta.
      apply IH; [done|]. simpl. inversion Hex; subst; [congruence|done].
    + rewrite notify_new_post_no_time by done. by eexists.
Qed.

End Notify.

(** ** [send_reddit_notifications] *)

Definition fetch_failed_line (e : string) : string :=
  "An error occurred while fetching the URL: " +:+ e.

(** The state once [line] has been printed. *)
Definition printed (line : string) (s : state) : state :=
  {| notified_ids := notified_ids s;
     notified_ids_json := notified_ids_json s;
     trace := trace s ++ [Print line];
     calls := calls s |}.

Section Cycle.

Context (w : World).

Lemma fetch_failure sr q s e :
  http_get_search w (calls s) sr q = inl e →
  fetch_and_parse_reddit_search w sr q s =
  (Ok [], {| notified_ids := notified_ids s;
             notified_ids_json := notified_ids_json s;
             trace := trace s ++ [Print (fetch_failed_line e)];
             calls := S (calls s) |}).
Proof.
  intros Hget. unfold fetch_and_parse_reddit_search, download_reddit_search.
  unfold_M. simpl. by rewrite Hget.
Qed.

Lemma fetch_success sr q s soup posts :
  http_get_search w (calls s) sr q = inr soup →
  parse_reddit_search_results w soup = Ok posts →
  fetch_and_parse_reddit_search w sr q s =
  (Ok posts, {| notified_ids := notified_ids s;
                notified_ids_json := notified_ids_json s;
                trace := trace s;
                calls := S (calls s) |}).
Proof.
  intros Hget Hparse. unfold fetch_and_parse_reddit_search, download_reddit_search.
  unfold_M. simpl. rewrite Hget. simpl. by rewrite Hparse.
Qed.

(** Fetching returns a list of posts, touches neither the set nor the
    file, and makes no request to the push channel. *)
Lemma fetch_frame sr q s :
  ∃ posts sa,
    fetch_and_parse_reddit_search w sr q s = (Ok posts, sa) ∧
    notified_ids sa = notified_ids s ∧
    notified_ids_json sa = notified_ids_json s ∧
    pushes (trace sa) = pushes (trace s) ∧
    (∃ evs, trace sa = trace s ++ evs).
Proof.
  destruct (http_get_search w (calls s) sr q) as [e|soup] eqn:Hget.
  - rewrite (fetch_failure _ _ _ e) by done. do 2 eexists. split; [done|]. simpl.
    rewrite pushes_app. simpl. rewrite app_nil_r. eauto.
  - destruct (parse_reddit_search_results_total w soup) as [posts [Hparse _]].
    rewrite (fetch_success _ _ _ soup posts) by done. do 2 eexists.
    split; [done|]. simpl. repeat split; try done. exists []. by rewrite app_nil_r.
Qed.

Lemma send_reddit_notifications_eq sr q s :
  send_reddit_notifications w sr q s =
  match fetch_and_parse_reddit_search w sr q s with
  | (Ok posts, sa) =>
      match notify_loop w sr posts 0 sa with
      | (Ok n, sb) => (Ok tt, printed (summary_line (length posts) n) sb)
      | (Raise e, sb) => (Raise e, sb)
      end
  | (Raise e, sa) => (Raise e, sa)
  end.
Proof.
  unfold send_reddit_notifications. unfold_M.
  destruct (fetch_and_parse_reddit_search w sr q s) as [[posts|e] sa]; [|done].
  by destruct (notify_loop w sr posts 0 sa) as [[n|e] sb].
Qed.

(** The call only adds ids, only appends events and leaves the file alone. *)
Lemma send_reddit_notifications_frame sr q s r s' :
  send_reddit_notifications w sr q s = (r, s') →
  notified_ids s ⊆ notified_ids s' ∧
  notified_ids_json s' = notified_ids_json s ∧
  ∃ evs, trace s' = trace s ++ evs.
Proof.
  rewrite send_reddit_notifications_eq.
  destruct (fetch_frame sr q s) as [posts [sa [-> [Hids [Hfile [_ [evs0 Htr0]]]]]]].
  destruct (notify_loop w sr posts 0 sa) as [[n|e] sb] eqn:Hloop;
    apply notify_loop_frame in Hloop as [Hsub [Hf [evs Htr]]];
    intros ?; simplify_eq; simpl.
  - split; [set_solver|]. split; [congruence|].
    exists (evs0 ++ evs ++ [Print (summary_line (length posts) n)]).
    rewrite Htr, Htr0. by rewrite <- !app_assoc.
  - split; [set_solver|]. split; [congruence|].
    exists (evs0 ++ evs). rewrite Htr, Htr0. by rewrite <- !app_assoc.
Qed.

End Cycle.

(** C1 (what the code does). With the page fetched and a credential set,
    a post that the call treats as new and whose time is None makes
    [send_reddit_notifications] raise [TypeError] at the subtraction
    [now - post["time"]]: no title or body is produced for it. *)
Theorem null_timestamp_raises (w : World) (sr q : string) (s : state)
    (soup : Soup.node) (posts : list post) (k : string) :
  http_get_search w (calls s) sr q = inr soup →
  parse_reddit_search_results w soup = Ok posts →
  credential w k →
  Exists (λ p, post_time p = None) (new_posts (notified_ids s) posts) →
  ∃ s', send_reddit_notifications w sr q s = (Raise (TypeError no_time_message), s').
Proof.
  intros Hget Hparse Hk Hex.
  rewrite send_reddit_notifications_eq, (fetch_success w _ _ _ soup posts) by done.
  destruct (notify_loop_no_time w sr k posts 0
              {| notified_ids := notified_ids s;
                 notified_ids_json := notified_ids_json s;
                 trace := trace s;
                 calls := S (calls s) |} Hk Hex) as [s' ->].
  by exists s'.
Qed.


(** Microseconds since the epoch of [datetime.min], of [datetime.max],
    and the length of a day. *)
Definition datetime_min : Z := (-62135596800000000)%Z.
Definition datetime_max : Z := 253402300799999999%Z.
Definition one_day : Z := 86400000000%Z.

(** The instants that the conversion to New York time can display: those a
    day or more away from both ends of the range of [datetime]. Nearer to
    [datetime.min], [astimezone] leaves the range and raises
    [OverflowError]. *)
Definition displayable (t : Z) : Prop :=
  (datetime_min + one_day ≤ t ≤ datetime_max - one_day)%Z.

(** C4 (as amended). The page holds exactly two results, with ids "abc"
    and "def" (in either order), the set is {"abc"}, and the post "def"
    has a time that can be displayed. With a credential the call returns,
    makes exactly one request to the push channel, for "def", leaves the
    set equal to {"abc", "def"}, and prints "Checked for new posts. Total
    posts: 2, new posts: 1". Without a credential the call raises
    [ValueError]: nothing is sent, nothing is printed and the set stays
    {"abc"}. *)
Theorem scenario_two_posts_one_known (w : World) (sr q : string) (s : state)
    (soup : Soup.node) (pa pd : post) (t : Z) :
  notified_ids s = {["abc"]} →
  http_get_search w (calls s) sr q = inr soup →
  parse_reddit_search_results w soup = Ok [pa; pd] ∨
  parse_reddit_search_results w soup = Ok [pd; pa] →
  post_id pa = "abc" →
  post_id pd = "def" →
  post_time pd = Some t →
  displayable t →
  (∀ k, credential w k →
     ∃ failure s',
       let title := notification_title w sr pd (clock w (S (calls s)) - t) in
       let body := notification_body pd (isoformat_new_york w t) in
       send_reddit_notifications w sr q s = (Ok tt, s') ∧
       notified_ids s' = {["abc"; "def"]} ∧
       notified_ids_json s' = notified_ids_json s ∧
       trace s' = trace s ++
         [Post title body failure;
          Print (delivery_line failure);
          Print "Checked for new posts. Total posts: 2, new posts: 1"]) ∧
  (no_credential w →
     send_reddit_notifications w sr q s
     = (Raise (ValueError missing_key_message),
        {| notified_ids := {["abc"]};
           notified_ids_json := notified_ids_json s;
           trace := trace s;
           calls := S (S (calls s)) |})).
Proof.
  intros Hids Hget Hparse Ha Hd Ht _.
  rewrite send_reddit_notifications_eq.
  set (sa := {| notified_ids := notified_ids s;
                notified_ids_json := notified_ids_json s;
                trace := trace s;
                calls := S (calls s) |}).
  assert (post_id pa ∈ notified_ids sa) as Hknown by (simpl; set_solver).
  assert (post_id pd ∉ notified_ids sa) as Hnew.
  { simpl. rewrite Hids, Hd. set_solver. }
  split.
  - intros k Hk.
    destruct Hparse as [Hparse|Hparse];
      rewrite (fetch_success w _ _ _ soup _ Hget Hparse); fold sa.
    + rewrite notify_loop_skip, notify_loop_new by done.
      rewrite (notify_new_post_sent w sr pd t k sa Ht Hk). cbv zeta. simpl.
      do 2 eexists. split; [reflexivity|]. simpl.
      split; [rewrite Hids, Hd; set_solver|]. split; [done|].
      by rewrite <- app_assoc.
    + rewrite notify_loop_new by done.
      rewrite (notify_new_post_sent w sr pd t k sa Ht Hk). cbv beta iota zeta.
      rewrite notify_loop_skip by (simpl; rewrite Hids, Ha; set_solver). simpl.
      do 2 eexists. split; [reflexivity|]. simpl.
      split; [rewrite Hids, Hd; set_solver|]. split; [done|].
      by rewrite <- app_assoc.
  - intros Hno.
    destruct Hparse as [Hparse|Hparse];
      rewrite (fetch_success w _ _ _ soup _ Hget Hparse); fold sa.
    + rewrite notify_loop_skip, notify_loop_new by done.
      rewrite (notify_new_post_no_credential w sr pd t sa Ht Hno).
      simpl. by rewrite Hids.
    + rewrite notify_loop_new by done.
      rewrite (notify_new_post_no_credential w sr pd t sa Ht Hno).
      simpl. by rewrite Hids.
Qed.

(** C5. A post is new, has a time, a credential is set, and the request to
    the push channel fails with the message [e]. Then the branch for the
    post returns: the failure is printed and the id of the post is in the
    set afterwards. In the loop, the count goes up by one and the loop
    goes on with the posts that follow. *)
Theorem failed_delivery_still_marks_notified (w : World) (sr : string) (p : post)
    (rest : list post) (cnt : nat) (s : state) (t : Z) (k e : string) :
  let title := notification_title w sr p (clock w (calls s) - t) in
  let body := notification_body p (isoformat_new_york w t) in
  post_id p ∉ notified_ids s →
  post_time p = Some t →
  credential w k →
  http_post_push w (S (calls s)) k title body = Some e →
  ∃ s',
    notify_new_post w sr p s = (Ok tt, s') ∧
    post_id p ∈ notified_ids s' ∧
    notified_ids s' = {[post_id p]} ∪ notified_ids s ∧
    trace s' = trace s ++
      [Post title body (Some e); Print ("Failed to send notification: " +:+ e)] ∧
    notify_loop w sr (p :: rest) cnt s = notify_loop w sr rest (S cnt) s'.
Proof.
  intros title body Hnew Ht Hk Hfail.
  rewrite notify_loop_new by done.
  rewrite (notify_new_post_sent w sr p t k s Ht Hk). cbv zeta.
  fold title body. rewrite Hfail.
  eexists. split; [reflexivity|]. simpl. split; [set_solver|]. done.
Qed.

(** C7. When the fetch of the search page fails, the call returns: the set
    and the file are as before, no request is made to the push channel,
    and the lines printed are the report of the failure and "Checked for
    new posts. Total posts: 0, new posts: 0". *)
Theorem fetch_failure_changes_nothing (w : World) (sr q : string) (s : state)
    (e : string) :
  http_get_search w (calls s) sr q = inl e →
  ∃ s',
    send_reddit_notifications w sr q s = (Ok tt, s') ∧
    notified_ids s' = notified_ids s ∧
    notified_ids_json s' = notified_ids_json s ∧
    trace s' = trace s ++
      [Print ("An error occurred while fetching the URL: " +:+ e);
       Print "Checked for new posts. Total posts: 0, new posts: 0"].
Proof.
  intros Hget. rewrite send_reddit_notifications_eq, (fetch_failure w _ _ _ e Hget).
  simpl. unfold_M. eexists. split; [reflexivity|]. simpl.
  split; [done|]. split; [done|]. by rewrite <- app_assoc.
Qed.

(** C10. Whatever way a call of [send_reddit_notifications] ends, every id
    of the set before the call is in the set after it. When the call
    returns, the set after it is the set before it together with the ids
    of the posts treated as new, one request to the push channel was made
    for each of them, in order, and the summary line counts them. *)
Theorem notified_ids_grow (w : World) (sr q : string) (s s' : state)
    (r : Py.result unit) :
  send_reddit_notifications w sr q s = (r, s') →
  notified_ids s ⊆ notified_ids s' ∧
  (r = Ok tt →
   ∃ posts sa evs,
     fetch_and_parse_reddit_search w sr q s = (Ok posts, sa) ∧
     let new := new_posts (notified_ids s) posts in
     notified_ids s' = notified_ids s ∪ list_to_set (post_id <$> new) ∧
     trace s' = trace sa ++ evs ++ [Print (summary_line (length posts) (length new))] ∧
     Forall2 (push_of w sr) new (pushes evs)).
Proof.
  intros Hrun. split; [by eapply send_reddit_notifications_frame|].
  intros ->. rewrite send_reddit_notifications_eq in Hrun.
  destruct (fetch_frame w sr q s) as [posts [sa [Hf [Hids _]]]].
  rewrite Hf in Hrun. exists posts, sa.
  destruct (notify_loop w sr posts 0 sa) as [[n|e] sb] eqn:Hloop; [|discriminate].
  apply notify_loop_returns in Hloop as [Hn [Hset [_ [evs [Htr HF]]]]].
  rewrite Hids in *. simplify_eq. exists evs. simpl.
  split; [done|]. split; [done|]. split; [|done].
  by rewrite Htr, <- app_assoc.
Qed.

(** ** The file of notified ids *)

Section JsonFile.

Lemma append_String (x : ascii) (a b : string) :
  String x a +:+ b = String x (a +:+ b).
Proof. reflexivity. Qed.

Lemma append_assoc (a b c : string) : (a +:+ b) +:+ c = a +:+ (b +:+ c).
Proof.
  induction a as [|x a IH]; [done|]. rewrite !append_String. by f_equal.
Qed.

Lemma append_empty_r (a : string) : a +:+ "" = a.
Proof.
  induction a as [|x a IH]; [done|]. rewrite append_String. by f_equal.
Qed.

(** Inside a string, the decoder reads the escape of a character back as
    that character. *)
Lemma scan_escape_char c cur acc rest :
  Json.scan (Json.InString cur) acc (Json.escape_char c +:+ rest)
  = Json.scan (Json.InString (cur +:+ String c "")) acc rest.
Proof.
  destruct c as [b0 b1 b2 b3 b4 b5 b6 b7].
  destruct b0, b1, b2, b3, b4, b5, b6, b7; reflexivity.
Qed.

Lemma scan_escape s : ∀ cur acc rest,
  Json.scan (Json.InString cur) acc (Json.escape s +:+ rest)
  = Json.scan (Json.InString (cur +:+ s)) acc rest.
Proof.
  induction s as [|c s IH]; intros cur acc rest.
  - simpl. by rewrite append_empty_r.
  - simpl Json.escape. rewrite append_assoc, scan_escape_char, IH.
    by rewrite append_assoc.
Qed.

(** A string written by the encoder is read back whole. *)
Lemma scan_encoded_string s acc rest :
  Json.scan (Json.InString "") acc
    (Json.escape s +:+ String Json.dquote rest)
  = Json.scan Json.AfterValue (acc ++ [s]) rest.
Proof. by rewrite scan_escape. Qed.

Lemma encode_append s rest :
  Json.encode_basestring_ascii s +:+ rest
  = String Json.dquote (Json.escape s +:+ String Json.dquote rest).
Proof.
  unfold Json.encode_basestring_ascii. by rewrite append_String, append_assoc.
Qed.

Lemma scan_quote st acc rest :
  st = Json.AtFirst ∨ st = Json.AtValue →
  Json.scan st acc (String Json.dquote rest)
  = Json.scan (Json.InString "") acc rest.
Proof. by intros [-> | ->]. Qed.

Lemma scan_separator acc rest :
  Json.scan Json.AfterValue acc (", " +:+ rest) = Json.scan Json.AtValue acc rest.
Proof. reflexivity. Qed.

Lemma scan_close acc :
  Json.scan Json.AfterValue acc "]" = Ok acc.
Proof. reflexivity. Qed.

Lemma scan_items l : ∀ acc st,
  st = Json.AtFirst ∨ st = Json.AtValue →
  l ≠ [] →
  Json.scan st acc (Json.join_items l +:+ "]") = Ok (acc ++ l).
Proof.
  induction l as [|x l IH]; intros acc st Hst Hne; [done|]. clear Hne.
  destruct l as [|y l].
  - simpl Json.join_items.
    by rewrite encode_append, scan_quote, scan_encoded_string, scan_close.
  - change (Json.join_items (x :: y :: l))
      with (Json.encode_basestring_ascii x +:+ ", " +:+ Json.join_items (y :: l)).
    rewrite !append_assoc, encode_append, scan_quote, scan_encoded_string by done.
    rewrite scan_separator, IH by (eauto; done).
    by rewrite <- app_assoc.
Qed.

(** What [json.dumps] writes for a list of strings, [json.loads] reads
    back as the same list. *)
Lemma loads_dumps (l : list string) : Json.loads (Json.dumps l) = Ok l.
Proof.
  unfold Json.loads, Json.dumps. destruct l as [|x l]; [done|].
  change (Json.scan Json.AtFirst [] (Json.join_items (x :: l) +:+ "]") = Ok (x :: l)).
  by rewrite scan_items by (eauto; done).
Qed.

End JsonFile.

(** C8. Saving the set to [notified_ids.json] and loading the file back
    gives the same set: both steps return, and the set read is the set
    written. The same holds for a file written from any listing of the
    ids, whatever its order and whatever ids it repeats. *)
Theorem save_then_load (s : state) :
  (∃ s1 s2,
     save_notified_ids s = (Ok tt, s1) ∧
     notified_ids_json s1 = Some (Json.dumps (elements (notified_ids s))) ∧
     load_notified_ids s1 = (Ok tt, s2) ∧
     notified_ids s2 = notified_ids s) ∧
  (∀ l : list string,
     ∃ s2,
       (write_notified_ids_json (Json.dumps l);; load_notified_ids) s = (Ok tt, s2) ∧
       notified_ids s2 = list_to_set l).
Proof.
  split.
  - unfold save_notified_ids, load_notified_ids. unfold_M. simpl.
    do 2 eexists. split; [reflexivity|]. simpl. split; [done|].
    rewrite loads_dumps. split; [reflexivity|]. simpl.
    apply list_to_set_elements_L.
  - intros l. unfold load_notified_ids. unfold_M. simpl.
    rewrite loads_dumps. by eexists.
Qed.

(** ** The loop of [main] *)

Definition searching_line (c : search_config) : string :=
  "Searching in r/" +:+ subreddit c +:+ " for '" +:+ search_query c +:+ "'".

Definition error_line (e : exn) : string := "An error occurred: " +:+ str_exn e.

(** The state when the pass has printed its first line. *)
Definition pass_started (w : World) (s : state) : state :=
  {| notified_ids := notified_ids s;
     notified_ids_json := notified_ids_json s;
     trace := trace s ++ [Print ("Searching at " +:+ str_new_york w (clock w (calls s)))];
     calls := S (calls s) |}.

(** The state when the pass has printed [lines] and gone to sleep. *)
Definition pass_ended (lines : list event) (s : state) : state :=
  {| notified_ids := notified_ids s;
     notified_ids_json := notified_ids_json s;
     trace := trace s ++ lines ++ [Print "Sleeping for 5 minutes..."; Sleep 300];
     calls := calls s |}.

Section MainLoop.

Context (w : World).

Lemma search_loop_cons c rest s :
  search_loop w (c :: rest) s =
  match send_reddit_notifications w (subreddit c) (search_query c)
          (printed (searching_line c) s) with
  | (Ok _, s1) =>
      search_loop w rest
        {| notified_ids := notified_ids s1;
           notified_ids_json := notified_ids_json s1;
           trace := trace s1 ++ [Sleep 10];
           calls := calls s1 |}
  | (Raise e, s1) => (Raise e, s1)
  end.
Proof.
  simpl. unfold_M. fold (searching_line c). fold (printed (searching_line c) s).
  by destruct (send_reddit_notifications w (subreddit c) (search_query c)
                 (printed (searching_line c) s)) as [[[]|e] s1].
Qed.

Lemma search_loop_app pre rest : ∀ s,
  search_loop w (pre ++ rest) s =
  match search_loop w pre s with
  | (Ok _, s1) => search_loop w rest s1
  | (Raise e, s1) => (Raise e, s1)
  end.
Proof.
  induction pre as [|c pre IH]; intros s; [done|].
  rewrite <- app_comm_cons, !search_loop_cons.
  destruct (send_reddit_notifications w (subreddit c) (search_query c)
              (printed (searching_line c) s)) as [[[]|e] s1]; [|done].
  apply IH.
Qed.

(** The searches never write the file and never remove an id. *)
Lemma search_loop_frame cfg : ∀ s r s',
  search_loop w cfg s = (r, s') →
  notified_ids s ⊆ notified_ids s' ∧ notified_ids_json s' = notified_ids_json s.
Proof.
  induction cfg as [|c cfg IH]; intros s r s' Hrun.
  - simpl in Hrun. unfold_M. by simplify_eq.
  - rewrite search_loop_cons in Hrun.
    destruct (send_reddit_notifications w (subreddit c) (search_query c)
                (printed (searching_line c) s)) as [[[]|e] s1] eqn:Hsend;
      apply send_reddit_notifications_frame in Hsend as [Hsub [Hfile _]];
      simpl in *.
    + apply IH in Hrun as [Hsub' Hfile']. simpl in *.
      split; [set_solver|congruence].
    + by simplify_eq.
Qed.

Lemma pass_eq cfg s :
  pass w cfg s =
  match search_loop w cfg (pass_started w s) with
  | (Ok _, s1) =>
      (Ok tt,
       {| notified_ids := notified_ids s1;
          notified_ids_json := Some (Json.dumps (elements (notified_ids s1)));
          trace := trace s1 ++ [Print "Sleeping for 5 minutes..."; Sleep 300];
          calls := calls s1 |})
  | (Raise e, s1) => (Ok tt, pass_ended [Print (error_line e)] s1)
  end.
Proof.
  unfold pass, save_notified_ids. unfold_M. simpl. fold (pass_started w s).
  destruct (search_loop w cfg (pass_started w s)) as [[[]|e] s1]; simpl.
  - by rewrite <- app_assoc.
  - unfold pass_ended. by rewrite <- !app_assoc.
Qed.

(** A pass returns, whatever happens in it. *)
Lemma pass_returns cfg s : ∃ s', pass w cfg s = (Ok tt, s').
Proof.
  rewrite pass_eq.
  destruct (search_loop w cfg (pass_started w s)) as [[[]|e] s1]; by eexists.
Qed.

Lemma passes_return cfg n : ∀ s, ∃ s', passes w cfg n s = (Ok tt, s').
Proof.
  induction n as [|n IH]; intros s; [by exists s|].
  simpl. unfold_M. destruct (pass_returns cfg s) as [s1 ->]. apply IH.
Qed.


End MainLoop.


(** C2 (as amended). A pass goes through the configured pairs in order.
    When the call for one pair raises, the pairs before it have been
    processed, the pairs after it are not processed in that pass and the
    file is not written; the error is printed by the handler of the pass,
    and the pass ends normally, so that the next pass takes place. *)
Theorem exception_ends_the_pass (w : World) (pre rest : list search_config)
    (c : search_config) (s s1 s2 : state) (e : exn) :
  search_loop w pre (pass_started w s) = (Ok tt, s1) →
  send_reddit_notifications w (subreddit c) (search_query c)
    (printed (searching_line c) s1) = (Raise e, s2) →
  pass w (pre ++ c :: rest) s = (Ok tt, pass_ended [Print (error_line e)] s2) ∧
  notified_ids_json s2 = notified_ids_json s.
Proof.
  intros Hpre Hsend. split.
  - by rewrite pass_eq, search_loop_app, Hpre, search_loop_cons, Hsend.
  - apply search_loop_frame in Hpre as [_ Hfile1].
    apply send_reddit_notifications_frame in Hsend as [_ [Hfile2 _]].
    simpl in *. congruence.
Qed.


(** * The program on concrete pages *)

Module Example.

Definition stamp : string := "2024-06-01T12:00:00+00:00".

(** One entry of a search page, as old.reddit.com lays it out. *)
Definition search_result (fullname : string) (time : option string) : Soup.node :=
  Soup.Tag "div"
    [("class", " search-result search-result-link has-thumbnail ");
     ("data-fullname", fullname)]
    ([Soup.Tag "div" [("class", "search-result-header")]
        [Soup.Tag "a" [("href", "/r/rust/comments/" +:+ fullname +:+ "/");
                       ("class", "search-title may-blank")]
           [Soup.NavigableString "  Rust job "; Soup.Tag "em" [] [Soup.NavigableString "offer"]]];
      Soup.Tag "div" [("class", "search-result-meta")]
        ([Soup.Tag "span" [("class", "search-author")]
            [Soup.NavigableString "by ";
             Soup.Tag "a" [("href", "https://old.reddit.com/user/ferris");
                           ("class", "author may-blank")]
               [Soup.NavigableString "ferris"]]]
         ++ match time with
            | Some t => [Soup.Tag "time" [("title", "Sat Jun 1"); ("datetime", t)]
                           [Soup.NavigableString "3 days ago"]]
            | None => []
            end)]).

Definition page (results : list Soup.node) : Soup.node :=
  Soup.Tag "[document]" []
    [Soup.Tag "html" []
       [Soup.Tag "body" []
          [Soup.Tag "div" [("class", "content")] results]]].

(** Two results, "abc" then "def", both with a time. *)
Definition page_abc_def : Soup.node :=
  page [search_result "t3_abc" (Some stamp); search_result "t3_def" (Some stamp)].

(** One result, "xyz", without a [time] element. *)
Definition page_no_time : Soup.node := page [search_result "t3_xyz" None].

Definition searches : yaml_file :=
  Parsed (DocList [ItemDict [("subreddit", "rust"); ("search_query", "hiring")];
                   ItemDict [("subreddit", "golang"); ("search_query", "remote")]]).

Definition world (key : option string) (get : string → string + Soup.node)
    (post : option string) : World :=
  {| fromisoformat_utc := fun s =>
       if String.eqb s stamp then Some 1717243200000000%Z else None;
     naturaltime := fun _ => "3 days ago";
     isoformat_new_york := fun _ => "2024-06-01T08:00:00-04:00";
     str_new_york := fun _ => "2024-06-04 08:00:00-04:00";
     clock := fun n => (1717502400000000 + Z.of_nat n)%Z;
     searches_yml := searches;
     environ_PUSHBULLET_API_KEY := key;
     http_get_search := fun _ sr _ => get sr;
     http_post_push := fun _ _ _ _ => post |}.

(** Everything works. *)
Definition w_ok : World := world (Some "o.key") (fun _ => inr page_abc_def) None.

(** The push channel answers with an error. *)
Definition w_push_down : World :=
  world (Some "o.key") (fun _ => inr page_abc_def) (Some "503 Server Error").

(** The search page cannot be fetched. *)
Definition w_reddit_down : World :=
  world (Some "o.key") (fun _ => inl "Read timed out.") None.

(** The first subreddit shows a post without a time. *)
Definition w_no_time : World :=
  world (Some "o.key")
    (fun sr => if String.eqb sr "rust" then inr page_no_time else inr page_abc_def)
    None.

(** The credential is not set. *)
Definition w_no_key : World := world None (fun _ => inr page_abc_def) None.

Definition post_of (id : string) (time : option Z) : post :=
  {| post_id := id;
     post_title := "Rust job offer";
     post_author := "ferris";
     post_link := "https://www.reddit.com/r/rust/comments/t3_" +:+ id +:+ "/";
     post_time := time |}.

Definition s_empty : state := initial_state None.

Definition s_abc : state :=
  {| notified_ids := {["abc"]}; notified_ids_json := Some (Json.dumps ["abc"]);
     trace := []; calls := 0 |}.

Example parse_page_abc_def :
  parse_reddit_search_results w_ok page_abc_def
  = Ok [post_of "abc" (Some 1717243200000000%Z); post_of "def" (Some 1717243200000000%Z)].
Proof. reflexivity. Qed.

Example parse_page_no_time :
  parse_reddit_search_results w_no_time page_no_time = Ok [post_of "xyz" None].
Proof. reflexivity. Qed.

End Example.

(** ** The theorems at these inputs *)

Import Example.

Definition rust : search_config := {| subreddit := "rust"; search_query := "hiring" |}.
Definition golang : search_config := {| subreddit := "golang"; search_query := "remote" |}.

(** C1 at a page whose only post has no time. *)
Lemma null_timestamp_raises_at_page_no_time :
  ∃ s', send_reddit_notifications w_no_time "rust" "hiring" s_empty
        = (Raise (TypeError no_time_message), s').
Proof.
  apply (null_timestamp_raises w_no_time "rust" "hiring" s_empty page_no_time
           [post_of "xyz" None] "o.key").
  - reflexivity.
  - reflexivity.
  - split; [reflexivity|discriminate].
  - vm_compute. apply Exists_cons_hd. reflexivity.
Defined.

(** The claim of C2 as the specification words it: every configured pair
    is processed in the pass, which shows in its line "Searching in ...". *)
Definition every_pair_processed (w : World) (cfg : list search_config) (s : state) : Prop :=
  ∀ c, c ∈ cfg → Print (searching_line c) ∈ trace (pass w cfg s).2.

(** C2 fails: the search in r/rust raises, and r/golang is not searched in
    that pass. *)
Lemma pass_skips_remaining_pairs :
  ¬ every_pair_processed w_no_time [rust; golang] s_empty.
Proof.
  intros Hall. specialize (Hall golang).
  assert (trace (pass w_no_time [rust; golang] s_empty).2
          = [Print "Searching at 2024-06-04 08:00:00-04:00";
             Print "Searching in r/rust for 'hiring'";
             Print (error_line (TypeError no_time_message));
             Print "Sleeping for 5 minutes...";
             Sleep 300]) as Htrace by reflexivity.
  rewrite Htrace in Hall.
  assert (golang ∈ [rust; golang]) as Hin by (apply elem_of_cons; right; apply elem_of_cons; by left).
  apply Hall in Hin.
  repeat (apply elem_of_cons in Hin as [Hin|Hin]; [discriminate|]).
  by apply elem_of_nil in Hin.
Qed.

(** C2 as amended, at the same pass. *)
Lemma exception_ends_the_pass_at_no_time :
  ∃ s2,
    pass w_no_time ([] ++ rust :: [golang]) s_empty
    = (Ok tt, pass_ended [Print (error_line (TypeError no_time_message))] s2) ∧
    notified_ids_json s2 = notified_ids_json s_empty.
Proof.
  eexists.
  apply (exception_ends_the_pass w_no_time [] [golang] rust s_empty
           (pass_started w_no_time s_empty)).
  - reflexivity.
  - reflexivity.
Defined.


(** Two results, "abc" with a time and "def" without. *)
Definition page_abc_def_no_time : Soup.node :=
  page [search_result "t3_abc" (Some stamp); search_result "t3_def" None].

Definition w_def_no_time : World :=
  world (Some "o.key") (fun _ => inr page_abc_def_no_time) None.

(** The claim of C4 as the specification words it: the call returns,
    having made exactly one request to the push channel, with the set
    {"abc", "def"} and the summary of 2 posts, 1 new. *)
Definition scenario_A_outcome (w : World) (sr q : string) (s : state) : Prop :=
  ∃ s',
    send_reddit_notifications w sr q s = (Ok tt, s') ∧
    length (pushes (trace s')) = S (length (pushes (trace s))) ∧
    notified_ids s' = {["abc"; "def"]} ∧
    Print (summary_line 2 1) ∈ trace s'.

(** C4 fails: the page has exactly the two results "abc" and "def" and the
    set is {"abc"}, but "def" has no time, and the call raises; and with
    both times present but no credential, the call raises as well. *)
Lemma scenario_fails_without_time_or_credential :
  (parse_reddit_search_results w_def_no_time page_abc_def_no_time
   = Ok [post_of "abc" (Some 1717243200000000%Z); post_of "def" None] ∧
   notified_ids s_abc = {["abc"]} ∧
   ¬ scenario_A_outcome w_def_no_time "rust" "hiring" s_abc) ∧
  (parse_reddit_search_results w_no_key page_abc_def
   = Ok [post_of "abc" (Some 1717243200000000%Z);
         post_of "def" (Some 1717243200000000%Z)] ∧
   ¬ scenario_A_outcome w_no_key "rust" "hiring" s_abc).
Proof.
  split; [split; [reflexivity|split; [reflexivity|]]|split; [reflexivity|]].
  - intros [s' [Hrun _]]. vm_compute in Hrun. discriminate.
  - intros [s' [Hrun _]]. vm_compute in Hrun. discriminate.
Qed.

(** C4 as amended, at the page with "abc" and "def". *)
Lemma scenario_two_posts_one_known_at_abc_def :
  (∀ k, credential w_ok k →
     ∃ failure s',
       let title := notification_title w_ok "rust"
                      (post_of "def" (Some 1717243200000000%Z))
                      (clock w_ok 1 - 1717243200000000) in
       let body := notification_body (post_of "def" (Some 1717243200000000%Z))
                     (isoformat_new_york w_ok 1717243200000000) in
       send_reddit_notifications w_ok "rust" "hiring" s_abc = (Ok tt, s') ∧
       notified_ids s' = {["abc"; "def"]} ∧
       notified_ids_json s' = notified_ids_json s_abc ∧
       trace s' = trace s_abc ++
         [Post title body failure;
          Print (delivery_line failure);
          Print "Checked for new posts. Total posts: 2, new posts: 1"]) ∧
  (no_credential w_ok →
     send_reddit_notifications w_ok "rust" "hiring" s_abc
     = (Raise (ValueError missing_key_message),
        {| notified_ids := {["abc"]};
           notified_ids_json := notified_ids_json s_abc;
           trace := trace s_abc;
           calls := S (S (calls s_abc)) |})).
Proof.
  apply (scenario_two_posts_one_known w_ok "rust" "hiring" s_abc page_abc_def
           (post_of "abc" (Some 1717243200000000%Z))
           (post_of "def" (Some 1717243200000000%Z))
           1717243200000000%Z).
  - reflexivity.
  - reflexivity.
  - left. reflexivity.
  - reflexivity.
  - reflexivity.
  - reflexivity.
  - unfold displayable, datetime_min, datetime_max, one_day. lia.
Defined.

(** C5 with a push channel that answers "503 Server Error". *)
Lemma failed_delivery_still_marks_notified_at_503 :
  let p := post_of "def" (Some 1717243200000000%Z) in
  ∃ s',
    notify_new_post w_push_down "rust" p s_abc = (Ok tt, s') ∧
    post_id p ∈ notified_ids s' ∧
    notified_ids s' = {[post_id p]} ∪ notified_ids s_abc ∧
    trace s' = trace s_abc ++
      [Post (notification_title w_push_down "rust" p
               (clock w_push_down (calls s_abc) - 1717243200000000))
            (notification_body p (isoformat_new_york w_push_down 1717243200000000))
            (Some "503 Server Error");
       Print ("Failed to send notification: " +:+ "503 Server Error")] ∧
    notify_loop w_push_down "rust" [p] 0 s_abc = notify_loop w_push_down "rust" [] 1 s'.
Proof.
  intros p.
  apply (failed_delivery_still_marks_notified w_push_down "rust" p [] 0 s_abc
           1717243200000000%Z "o.key" "503 Server Error").
  - vm_compute. set_solver.
  - reflexivity.
  - split; [reflexivity|discriminate].
  - reflexivity.
Defined.

(** C7 with a search page that times out. *)
Lemma fetch_failure_changes_nothing_at_timeout :
  ∃ s',
    send_reddit_notifications w_reddit_down "rust" "hiring" s_abc = (Ok tt, s') ∧
    notified_ids s' = notified_ids s_abc ∧
    notified_ids_json s' = notified_ids_json s_abc ∧
    trace s' = trace s_abc ++
      [Print ("An error occurred while fetching the URL: " +:+ "Read timed out.");
       Print "Checked for new posts. Total posts: 0, new posts: 0"].
Proof.
  apply (fetch_failure_changes_nothing w_reddit_down "rust" "hiring" s_abc
           "Read timed out.").
  reflexivity.
Defined.




(** C10 at the page with "abc" and "def", starting from the set {"abc"}. *)
Lemma notified_ids_grow_at_abc_def :
  let s' := (send_reddit_notifications w_ok "rust" "hiring" s_abc).2 in
  notified_ids s_abc ⊆ notified_ids s' ∧
  (Ok tt = Ok tt →
   ∃ posts sa evs,
     fetch_and_parse_reddit_search w_ok "rust" "hiring" s_abc = (Ok posts, sa) ∧
     let new := new_posts (notified_ids s_abc) posts in
     notified_ids s' = notified_ids s_abc ∪ list_to_set (post_id <$> new) ∧
     trace s' = trace sa ++ evs ++ [Print (summary_line (length posts) (length new))] ∧
     Forall2 (push_of w_ok "rust") new (pushes evs)).
Proof.
  intros s'.
  apply (notified_ids_grow w_ok "rust" "hiring" s_abc s' (Ok tt)).
  vm_compute. reflexivity.
Defined.

(** * Further properties of the program *)

(** ** What the parser puts in a record *)

(** [c in s] *)
Fixpoint contains_char (c : ascii) (s : string) : bool :=
  match s with
  | EmptyString => false
  | String a s' => Ascii.eqb a c || contains_char c s'
  end.

(** [s[0]] and [s[-1]], when there is one. *)
Definition first_char (s : string) : option ascii :=
  match s with
  | EmptyString => None
  | String a _ => Some a
  end.

Fixpoint last_char (s : string) : option ascii :=
  match s with
  | EmptyString => None
  | String a EmptyString => Some a
  | String _ s' => last_char s'
  end.

(** Neither the first nor the last character is whitespace. *)
Definition trimmed (s : string) : Prop :=
  (∀ a, first_char s = Some a → Str.isspace a = false) ∧
  (∀ a, last_char s = Some a → Str.isspace a = false).

Section Fields.

Lemma split_pieces_without_sep sep s :
  Forall (λ x, contains_char sep x = false) (Str.split sep s).
Proof.
  induction s as [|a s IH]; simpl.
  - by repeat constructor.
  - destruct (Ascii.eqb a sep) eqn:Ha; [by constructor|].
    destruct (Str.split sep s) as [|h t]; [constructor; [simpl; by rewrite Ha|done]|].
    inversion IH; subst. constructor; [simpl; by rewrite Ha|done].
Qed.

Lemma getitem_last_Forall {A} (P : A → Prop) (l : list A) x :
  Forall P l → Str.getitem_last l = Ok x → P x.
Proof.
  induction l as [|a l IH]; [done|]. intros HF Hlast.
  inversion HF; subst. destruct l as [|b l]; [simpl in Hlast; by simplify_eq|].
  by apply IH.
Qed.

Lemma getitem_last_cons {A} (x : A) (l : list A) :
  l ≠ [] → Str.getitem_last (x :: l) = Str.getitem_last l.
Proof. by destruct l. Qed.

Lemma split_without_sep sep s :
  contains_char sep s = false → Str.split sep s = [s].
Proof.
  induction s as [|a s IH]; [done|]. simpl.
  destruct (Ascii.eqb a sep); [done|]. simpl. intros Hs. by rewrite IH.
Qed.

Lemma split_with_sep sep a b :
  ∃ h t, Str.split sep (a +:+ String sep b) = h :: t ∧ t ≠ [].
Proof.
  induction a as [|x a [h [t [IH Ht]]]].
  - change ("" +:+ String sep b) with (String sep b). simpl.
    rewrite Ascii.eqb_refl. do 2 eexists. split; [done|]. apply split_not_nil.
  - rewrite append_String. simpl. rewrite IH.
    destruct (Ascii.eqb x sep); do 2 eexists; (split; [done|]); done.
Qed.

(** The last piece of a string is the last piece of what follows any of
    its separators. *)
Lemma getitem_last_split_after sep a b :
  Str.getitem_last (Str.split sep (a +:+ String sep b))
  = Str.getitem_last (Str.split sep b).
Proof.
  induction a as [|x a IH].
  - change ("" +:+ String sep b) with (String sep b). simpl.
    rewrite Ascii.eqb_refl. apply getitem_last_cons, split_not_nil.
  - rewrite append_String. simpl.
    destruct (split_with_sep sep a b) as [h [t [Hsplit Ht]]].
    rewrite Hsplit in *.
    destruct (Ascii.eqb x sep).
    + by rewrite getitem_last_cons.
    + rewrite <- IH. by rewrite !getitem_last_cons.
Qed.

Lemma lstrip_first s a :
  first_char (Str.lstrip s) = Some a → Str.isspace a = false.
Proof.
  induction s as [|x s IH]; [done|]. simpl.
  destruct (Str.isspace x) eqn:Hx; [done|]. simpl. by intros [= <-].
Qed.

Lemma rstrip_first s a :
  first_char (Str.rstrip s) = Some a → first_char s = Some a.
Proof.
  destruct s as [|x s]; [done|]. simpl.
  destruct (Str.rstrip s); [|done]. by destruct (Str.isspace x).
Qed.

Lemma rstrip_last s a :
  last_char (Str.rstrip s) = Some a → Str.isspace a = false.
Proof.
  induction s as [|x s IH]; [done|]. simpl.
  destruct (Str.rstrip s) as [|y r] eqn:Hr.
  - destruct (Str.isspace x) eqn:Hx; [done|]. simpl. by intros [= <-].
  - simpl. intros Hl. apply IH. by destruct r.
Qed.

Lemma strip_trimmed s : trimmed (Str.strip s).
Proof.
  unfold Str.strip. split; intros a Ha.
  - by apply rstrip_first, lstrip_first in Ha.
  - by apply rstrip_last in Ha.
Qed.

End Fields.

(** X1. The id of a record is what follows the last underscore of the
    attribute [data-fullname]: it holds no underscore; it is the empty
    string without the attribute, the whole value when the value has no
    underscore, and [id] for a value [kind_id] where [id] has none. *)
Theorem post_id_follows_last_underscore (w : World) (result : Soup.node) (r : post) :
  parse_search_result w result = Ok r →
  contains_char "_" (post_id r) = false ∧
  (Soup.attr_get (Soup.attrs_of result) "data-fullname" = None → post_id r = "") ∧
  (∀ v, Soup.attr_get (Soup.attrs_of result) "data-fullname" = Some v →
        contains_char "_" v = false → post_id r = v) ∧
  (∀ kind id,
     Soup.attr_get (Soup.attrs_of result) "data-fullname" = Some (kind +:+ String "_" id) →
     contains_char "_" id = false → post_id r = id).
Proof.
  intros Hparse.
  destruct (parse_search_result_returns w result) as [r' [Hr' Hex]].
  rewrite Hparse in Hr'. simplify_eq.
  pose proof (ex_id _ _ _ Hex) as Hid. unfold Soup.get in Hid.
  split; [|split; [|split]].
  - eapply (getitem_last_Forall (λ x, contains_char "_" x = false)); [|exact Hid].
    apply split_pieces_without_sep.
  - intros Hnone. rewrite Hnone in Hid. simpl in Hid. by simplify_eq.
  - intros v Hv Hno. rewrite Hv, (split_without_sep _ _ Hno) in Hid.
    simpl in Hid. by simplify_eq.
  - intros kind id Hv Hno.
    rewrite Hv, getitem_last_split_after, (split_without_sep _ _ Hno) in Hid.
    simpl in Hid. by simplify_eq.
Qed.

(** X2. No record carries a link that begins with "/": the link is empty,
    or begins with the origin, or is the href as found. *)
Theorem post_link_never_relative (w : World) (soup : Soup.node) (results : list post) :
  parse_reddit_search_results w soup = Ok results →
  Forall (λ r, Str.startswith_char "/" (post_link r) = false) results.
Proof.
  intros Hparse.
  destruct (parse_reddit_search_results_total w soup) as [rs [Hrs [_ [HF _]]]].
  rewrite Hparse in Hrs. simplify_eq.
  clear Hparse.
  induction HF as [|n r ns rs Hex _ IH]; [constructor|]. constructor; [|done].
  destruct (Soup.find n "a" (Some "search-title")) as [e|] eqn:Hfind.
  - destruct (Soup.attr_get (Soup.attrs_of e) "href") as [href|] eqn:Hhref.
    + destruct (Str.startswith_char "/" href) eqn:Hrel.
      * by rewrite (ex_link_relative _ _ _ Hex e href).
      * by rewrite (ex_link_absolute _ _ _ Hex e href).
    + by rewrite (ex_link_no_href _ _ _ Hex e).
  - by rewrite (ex_link_no_title _ _ _ Hex).
Qed.

(** X3. The title of a record neither begins nor ends with whitespace. *)
Theorem post_title_trimmed (w : World) (soup : Soup.node) (results : list post) :
  parse_reddit_search_results w soup = Ok results →
  Forall (λ r, trimmed (post_title r)) results.
Proof.
  intros Hparse.
  destruct (parse_reddit_search_results_total w soup) as [rs [Hrs [_ [HF _]]]].
  rewrite Hparse in Hrs. simplify_eq.
  clear Hparse.
  induction HF as [|n r ns rs Hex _ IH]; [constructor|]. constructor; [|done].
  destruct (Soup.find n "a" (Some "search-title")) as [e|] eqn:Hfind.
  - rewrite (ex_title_found _ _ _ Hex e Hfind). apply strip_trimmed.
  - rewrite (ex_title_missing _ _ _ Hex Hfind). by split; intros a [= <-].
Qed.

(** ** What a call of [send_reddit_notifications] can and cannot do *)

(** The state after one more external call. *)
Definition called (s : state) : state :=
  {| notified_ids := notified_ids s;
     notified_ids_json := notified_ids_json s;
     trace := trace s;
     calls := S (calls s) |}.

Section CycleFacts.

Context (w : World).

Lemma new_posts_fresh posts : ∀ ids,
  NoDup (post_id <$> new_posts ids posts) ∧
  Forall (λ p, post_id p ∉ ids) (new_posts ids posts) ∧
  sublist (new_posts ids posts) posts.
Proof.
  induction posts as [|p rest IH]; intros ids; simpl.
  - split; [constructor|]. split; [constructor|]. constructor.
  - destruct (decide (post_id p ∈ ids)) as [Hin|Hin].
    + destruct (IH ids) as [Hnd [Hfresh Hsub]].
      split; [done|]. split; [done|]. by apply sublist_cons.
    + destruct (IH ({[post_id p]} ∪ ids)) as [Hnd [Hfresh Hsub]].
      split; [|split].
      * simpl. constructor; [|done].
        intros Hdup. apply list_elem_of_fmap in Hdup as [p' [Hid Hp']].
        rewrite Forall_forall in Hfresh. specialize (Hfresh p' Hp'). set_solver.
      * constructor; [done|].
        eapply Forall_impl; [exact Hfresh|]. simpl. set_solver.
      * by apply sublist_skip.
Qed.

Lemma notify_loop_app sr pre rest : ∀ cnt s,
  notify_loop w sr (pre ++ rest) cnt s =
  match notify_loop w sr pre cnt s with
  | (Ok n, s1) => notify_loop w sr rest n s1
  | (Raise e, s1) => (Raise e, s1)
  end.
Proof.
  induction pre as [|p pre IH]; intros cnt s; [done|].
  rewrite <- app_comm_cons.
  destruct (decide (post_id p ∈ notified_ids s)) as [Hin|Hin].
  - rewrite !notify_loop_skip by done. apply IH.
  - rewrite !notify_loop_new by done.
    destruct (notify_new_post w sr p s) as [[[]|e] s1]; [apply IH|done].
Qed.

(** In the loop, the [TypeError] of the subtraction comes from a post
    without a time whose id is not in the set, and the [ValueError] of the
    push from a missing credential. *)
Lemma notify_loop_raises sr posts : ∀ cnt s e s',
  notify_loop w sr posts cnt s = (Raise e, s') →
  (e = TypeError no_time_message ∧
   Exists (λ p, post_time p = None ∧ post_id p ∉ notified_ids s') posts) ∨
  (e = ValueError missing_key_message ∧ no_credential w).
Proof.
  induction posts as [|p rest IH]; intros cnt s e s' Hrun; [done|].
  assert (∀ cnt s, notify_loop w sr rest cnt s = (Raise e, s') →
          (e = TypeError no_time_message ∧
           Exists (λ p, post_time p = None ∧ post_id p ∉ notified_ids s') (p :: rest)) ∨
          (e = ValueError missing_key_message ∧ no_credential w)) as IH'.
  { intros cnt0 s0 H0. destruct (IH _ _ _ _ H0) as [[-> Hex]|?]; [left|by right].
    split; [done|by apply Exists_cons_tl]. }
  destruct (decide (post_id p ∈ notified_ids s)) as [Hin|Hin].
  - rewrite notify_loop_skip in Hrun by done. by eapply IH'.
  - rewrite notify_loop_new in Hrun by done.
    destruct (post_time p) as [t|] eqn:Ht.
    + destruct (credential_or_not w) as [[k Hk]|Hno].
      * rewrite (notify_new_post_sent w sr p t k s Ht Hk) in Hrun.
        cbv beta iota zeta in Hrun. by eapply IH'.
      * rewrite (notify_new_post_no_credential w sr p t s Ht Hno) in Hrun.
        simplify_eq. by right.
    + rewrite (notify_new_post_no_time w sr p s Ht) in Hrun. simplify_eq.
      left. split; [done|]. by apply Exists_cons_hd.
Qed.

End CycleFacts.

(** X4. When every fetched post is already in the set, the call returns,
    sends nothing, leaves the set as it is and reports new posts: 0; this
    needs no credential, and posts without a time do no harm. *)
Theorem known_posts_are_passed_over (w : World) (sr q : string) (s sa : state)
    (posts : list post) :
  fetch_and_parse_reddit_search w sr q s = (Ok posts, sa) →
  Forall (λ p, post_id p ∈ notified_ids s) posts →
  send_reddit_notifications w sr q s
  = (Ok tt, printed (summary_line (length posts) 0) sa) ∧
  notified_ids sa = notified_ids s ∧
  pushes (trace sa) = pushes (trace s).
Proof.
  intros Hfetch Hknown.
  destruct (fetch_frame w sr q s) as [posts' [sa' [Hf [Hids [_ [Hpush _]]]]]].
  rewrite Hfetch in Hf. simplify_eq.
  rewrite send_reddit_notifications_eq, Hfetch.
  rewrite notify_loop_all_known by (by rewrite Hids). done.
Qed.

(** X5. A call that returns has made one request to the push channel for
    each post of a sublist of the fetched posts, in order; these posts
    have pairwise distinct ids, none of which was in the set before the
    call, and their number is the count the summary line reports, at most
    the total. *)
Theorem no_duplicate_notifications (w : World) (sr q : string) (s s' : state) :
  send_reddit_notifications w sr q s = (Ok tt, s') →
  ∃ posts sa new sent lines,
    fetch_and_parse_reddit_search w sr q s = (Ok posts, sa) ∧
    pushes (trace s') = pushes (trace s) ++ sent ∧
    Forall2 (push_of w sr) new sent ∧
    sublist new posts ∧
    NoDup (post_id <$> new) ∧
    Forall (λ p, post_id p ∉ notified_ids s) new ∧
    (length new ≤ length posts)%nat ∧
    trace s' = trace s ++ lines ++ [Print (summary_line (length posts) (length new))].
Proof.
  intros Hrun. rewrite send_reddit_notifications_eq in Hrun.
  destruct (fetch_frame w sr q s) as [posts [sa [Hf [Hids [_ [Hpush [evs0 Htr0]]]]]]].
  rewrite Hf in Hrun.
  destruct (notify_loop w sr posts 0 sa) as [[n|e] sb] eqn:Hloop; [|discriminate].
  apply notify_loop_returns in Hloop as [Hn [_ [_ [evs [Htr HF]]]]].
  rewrite Hids in *. simplify_eq.
  destruct (new_posts_fresh posts (notified_ids s)) as [Hnd [Hfresh Hsub]].
  exists posts, sa, (new_posts (notified_ids s) posts), (pushes evs), (evs0 ++ evs).
  split; [done|]. simpl. split; [|split; [done|split; [done|split; [done|split; [done|split]]]]].
  - by rewrite Htr, !pushes_app, Hpush, app_nil_r.
  - by apply sublist_length.
  - by rewrite Htr, Htr0, <- !app_assoc.
Qed.

(** X6. The two errors that the program's own lines raise in a call name
    their cause. When the call raises the [TypeError] of the subtraction,
    some fetched post has no time and its id is in the set neither before
    nor after the call. When it raises the [ValueError] of the push, the
    credential is unset or empty. *)
Theorem raised_errors_have_their_cause (w : World) (sr q : string) (s s' : state) :
  (send_reddit_notifications w sr q s = (Raise (TypeError no_time_message), s') →
   ∃ posts sa,
     fetch_and_parse_reddit_search w sr q s = (Ok posts, sa) ∧
     Exists (λ p, post_time p = None ∧
                  (post_id p ∉ notified_ids s) ∧ (post_id p ∉ notified_ids s')) posts) ∧
  (send_reddit_notifications w sr q s = (Raise (ValueError missing_key_message), s') →
   no_credential w).
Proof.
  assert (∀ e, send_reddit_notifications w sr q s = (Raise e, s') →
          ∃ posts sa,
            fetch_and_parse_reddit_search w sr q s = (Ok posts, sa) ∧
            notify_loop w sr posts 0 sa = (Raise e, s')) as Hloop.
  { intros e Hrun. rewrite send_reddit_notifications_eq in Hrun.
    destruct (fetch_frame w sr q s) as [posts [sa [Hf _]]].
    rewrite Hf in Hrun. exists posts, sa. split; [done|].
    destruct (notify_loop w sr posts 0 sa) as [[n|e'] sb]; by simplify_eq. }
  split; intros Hrun.
  - pose proof (send_reddit_notifications_frame w _ _ _ _ _ Hrun) as [Hsub _].
    destruct (Hloop _ Hrun) as [posts [sa [Hf Hl]]]. exists posts, sa.
    split; [done|].
    apply notify_loop_raises in Hl as [[_ Hex]|[[=] _]].
    eapply Exists_impl; [exact Hex|]. simpl. intros p [Ht Hnew].
    split; [done|]. split; [set_solver|done].
  - destruct (Hloop _ Hrun) as [posts [sa [_ Hl]]].
    by apply notify_loop_raises in Hl as [[[=] _]|[_ Hno]].
Qed.

(** X7. A new post without a time stops the loop there: the posts before
    it are handled, the posts after it are not looked at. Running the loop
    again from a state with the set it left raises at the same post,
    without a request to the push channel, so the posts after it are
    never reached while the page lists that post. *)
Theorem post_without_time_blocks_later_posts (w : World) (sr : string)
    (pre rest : list post) (p : post) (cnt n : nat) (s s1 : state) :
  notify_loop w sr pre cnt s = (Ok n, s1) →
  post_id p ∉ notified_ids s1 →
  post_time p = None →
  notify_loop w sr (pre ++ p :: rest) cnt s
  = (Raise (TypeError no_time_message), called s1) ∧
  (∀ cnt' s2, notified_ids s2 = notified_ids s1 →
     notify_loop w sr (pre ++ p :: rest) cnt' s2
     = (Raise (TypeError no_time_message), called s2)).
Proof.
  intros Hpre Hnew Ht. split.
  - rewrite notify_loop_app, Hpre, notify_loop_new by done.
    by rewrite notify_new_post_no_time.
  - intros cnt' s2 Hs2.
    pose proof (notify_loop_returns_known w _ _ _ _ _ _ Hpre) as Hknown.
    rewrite <- Hs2 in Hknown, Hnew.
    rewrite notify_loop_app, notify_loop_all_known, notify_loop_new by done.
    by rewrite notify_new_post_no_time.
Qed.

(** ** The configuration file *)

(** [item] is a mapping that gives the two values of [c]. *)
Definition item_gives (item : yaml_item) (c : search_config) : Prop :=
  ∃ entries,
    item = ItemDict entries ∧
    Soup.attr_get entries "subreddit" = Some (subreddit c) ∧
    Soup.attr_get entries "search_query" = Some (search_query c).

Lemma load_items_Ok config : ∀ cfg,
  load_items config = Ok cfg ↔ Forall2 item_gives config cfg.
Proof.
  induction config as [|item config IH]; intros cfg; simpl.
  - split; [intros [= <-]; constructor|by inversion 1].
  - split.
    + destruct item as [entries|]; [|done].
      destruct (Soup.attr_get entries "subreddit") as [sr|] eqn:Hsr; [|done].
      destruct (Soup.attr_get entries "search_query") as [q|] eqn:Hq; [|done].
      destruct (load_items config) as [cfg'|e] eqn:Hrest; [|done].
      simpl. intros [= <-]. constructor; [|by apply IH].
      by exists entries.
    + inversion 1 as [|? c ? cfg' [entries [-> [Hsr Hq]]] Hrest]; subst.
      rewrite Hsr, Hq. apply IH in Hrest. rewrite Hrest. by destruct c.
Qed.

Lemma load_items_raises config e :
  load_items config = Raise e → e = ValueError bad_item_message.
Proof.
  induction config as [|item config IH]; simpl; [done|].
  destruct item as [entries|]; [|by intros [= <-]].
  destruct (Soup.attr_get entries "subreddit"); [|by intros [= <-]].
  destruct (Soup.attr_get entries "search_query"); [|by intros [= <-]].
  destruct (load_items config); [done|]. simpl. intros [= <-]. by apply IH.
Qed.

(** X8. [load_search_config] returns exactly when the file holds a list
    whose items are all mappings with the keys [subreddit] and
    [search_query]; it then returns one pair per item, in order, with the
    values of these two keys, and prints nothing. *)
Theorem load_search_config_returns (w : World) (path : string) (s s' : state)
    (cfg : list search_config) :
  load_search_config w path s = (Ok cfg, s') ↔
  s' = s ∧ ∃ config, searches_yml w = Parsed (DocList config) ∧ Forall2 item_gives config cfg.
Proof.
  unfold load_search_config. unfold_M. split.
  - destruct (searches_yml w) as [|m|m|m|[config|]]; try done.
    destruct (load_items config) as [cfg'|e] eqn:Hitems; [|done].
    intros [= <- <-]. split; [done|]. exists config. split; [done|].
    by apply load_items_Ok.
  - intros [-> [config [-> Hitems]]]. apply load_items_Ok in Hitems.
    by rewrite Hitems.
Qed.

(** X9. What [load_search_config] has done when it raises, by the class
    of the exception, as its [except] clauses have it: for
    [FileNotFoundError] it has printed "Config file not found: " and the
    path; for [YAMLError], "Error parsing YAML file: " and the error; for
    a [ValueError] (that of a file that is not text included), "Invalid
    YAML format: " and the error; in each case one line and nothing
    else. An error of [open] of another class is raised with nothing
    printed. The two [ValueError]s of the function itself name their
    cause: a document that is not a list, or an item that is not a
    mapping with both keys. *)
Theorem load_search_config_raises (w : World) (path : string) (s s' : state) (e : exn) :
  load_search_config w path s = (Raise e, s') →
  (∀ m, e = FileNotFoundError m →
        s' = printed ("Config file not found: " +:+ path) s) ∧
  (∀ m, e = YAMLError m → s' = printed ("Error parsing YAML file: " +:+ m) s) ∧
  (is_ValueError e = true → s' = printed ("Invalid YAML format: " +:+ str_exn e) s) ∧
  (∀ m, e = OSError m → s' = s) ∧
  (e = ValueError not_a_list_message → searches_yml w = Parsed DocOther) ∧
  (e = ValueError bad_item_message →
   ∃ config, searches_yml w = Parsed (DocList config) ∧
             ∀ cfg, ¬ Forall2 item_gives config cfg).
Proof.
  assert (not_a_list_message ≠ bad_item_message) as Hdiff by done.
  unfold load_search_config. unfold_M.
  destruct (searches_yml w) as [|m|m|m|[config|]] eqn:Hyml; simpl.
  - intros [= <- <-]. repeat apply conj; intros; by simplify_eq/=.
  - intros [= <- <-]. repeat apply conj; intros; by simplify_eq/=.
  - intros [= <- <-]. repeat apply conj; intros; by simplify_eq/=.
  - intros [= <- <-]. repeat apply conj; intros; by simplify_eq/=.
  - destruct (load_items config) as [cfg'|e'] eqn:Hitems; [done|]. simpl.
    intros [= <- <-]. pose proof (load_items_raises _ _ Hitems) as ->.
    repeat apply conj; intros; simplify_eq/=; try done.
    exists config. split; [done|].
    intros cfg Hcfg. apply load_items_Ok in Hcfg. congruence.
  - intros [= <- <-]. repeat apply conj; intros; by simplify_eq/=.
Qed.

(** ** The run of [main] *)

Definition is_Sleep (ev : event) : bool :=
  match ev with
  | Sleep _ => true
  | _ => false
  end.

(** The waits of the process, in order. *)
Definition sleeps (tr : list event) : list event := List.filter is_Sleep tr.

(** What a search that returned leaves in the trace: its line "Searching
    in ...", then what the call did, which has no wait in it, then the
    wait of ten seconds. *)
Definition search_chunk (c : search_config) (chunk : list event) : Prop :=
  ∃ evs, chunk = Print (searching_line c) :: evs ++ [Sleep 10] ∧ sleeps evs = [].

(** What a search that raised leaves in the trace: its line and what the
    call did before it raised. *)
Definition search_cut_short (rest : list search_config) (tail : list event) : Prop :=
  ∃ c rest' evs, rest = c :: rest' ∧ tail = Print (searching_line c) :: evs.

Section Run.

Context (w : World).

Lemma sleeps_app tr1 tr2 : sleeps (tr1 ++ tr2) = sleeps tr1 ++ sleeps tr2.
Proof. unfold sleeps. by rewrite List.filter_app. Qed.

Lemma notify_loop_no_sleep sr posts : ∀ cnt s r s',
  notify_loop w sr posts cnt s = (r, s') → sleeps (trace s') = sleeps (trace s).
Proof.
  induction posts as [|p rest IH]; intros cnt s r s' Hrun.
  - simpl in Hrun. unfold_M. by simplify_eq.
  - destruct (decide (post_id p ∈ notified_ids s)) as [Hin|Hin].
    + rewrite notify_loop_skip in Hrun by done. by eapply IH.
    + rewrite notify_loop_new in Hrun by done.
      destruct (notify_new_post_cases w sr p s)
        as [[e [Hr _]]|[t [k [ev [line [_ [_ [Hev Hr]]]]]]]]; rewrite Hr in Hrun.
      * by simplify_eq.
      * apply IH in Hrun. rewrite Hrun. simpl. rewrite sleeps_app.
        destruct Hev as [d [t' [f [_ ->]]]]. simpl. by rewrite app_nil_r.
Qed.

Lemma send_reddit_notifications_no_sleep sr q s r s' :
  send_reddit_notifications w sr q s = (r, s') → sleeps (trace s') = sleeps (trace s).
Proof.
  rewrite send_reddit_notifications_eq.
  assert (∀ sa posts, fetch_and_parse_reddit_search w sr q s = (Ok posts, sa) →
          sleeps (trace sa) = sleeps (trace s)) as Hfetch.
  { intros sa posts. unfold fetch_and_parse_reddit_search, download_reddit_search.
    unfold_M. simpl. destruct (http_get_search w (calls s) sr q) as [e|soup]; simpl.
    - intros [= <- <-]. simpl. rewrite sleeps_app. simpl. by rewrite app_nil_r.
    - destruct (parse_reddit_search_results w soup); by intros [= <- <-]. }
  destruct (fetch_frame w sr q s) as [posts [sa [Hf _]]]. rewrite Hf.
  specialize (Hfetch sa posts Hf).
  destruct (notify_loop w sr posts 0 sa) as [[n|e] sb] eqn:Hloop;
    apply notify_loop_no_sleep in Hloop; intros [= <- <-]; simpl.
  - rewrite sleeps_app. simpl. rewrite app_nil_r. congruence.
  - congruence.
Qed.

(** What a call adds to the trace has no wait in it. *)
Lemma send_reddit_notifications_events sr q s r s' :
  send_reddit_notifications w sr q s = (r, s') →
  ∃ evs, trace s' = trace s ++ evs ∧ sleeps evs = [].
Proof.
  intros Hrun.
  pose proof (send_reddit_notifications_no_sleep _ _ _ _ _ Hrun) as Hsl.
  apply send_reddit_notifications_frame in Hrun as [_ [_ [evs Htr]]].
  exists evs. split; [done|].
  rewrite Htr, sleeps_app in Hsl.
  apply (app_inv_head (sleeps (trace s))). by rewrite app_nil_r.
Qed.

(** The trace of the loop over the searches: a chunk for each search that
    returned, in order, and, when a search raised, what it left. *)
Lemma search_loop_chunks cfg : ∀ s r s',
  search_loop w cfg s = (r, s') →
  ∃ done rest chunks tail,
    cfg = done ++ rest ∧
    Forall2 search_chunk done chunks ∧
    trace s' = trace s ++ concat chunks ++ tail ∧
    sleeps tail = [] ∧
    (r = Ok tt → rest = [] ∧ tail = []) ∧
    (∀ e, r = Raise e → search_cut_short rest tail).
Proof.
  induction cfg as [|c cfg IH]; intros s r s' Hrun.
  - simpl in Hrun. unfold_M. simplify_eq. exists [], [], [], []. simpl.
    split; [done|]. split; [constructor|]. split; [by rewrite app_nil_r|].
    split; [done|]. split; [done|]. intros e [=].
  - rewrite search_loop_cons in Hrun.
    destruct (send_reddit_notifications w (subreddit c) (search_query c)
                (printed (searching_line c) s)) as [[[]|e] s1] eqn:Hsend;
      apply send_reddit_notifications_events in Hsend as [evs [Htr Hsl]];
      simpl in Htr.
    + apply IH in Hrun
        as [done [rest [chunks [tail [-> [HF [Htr' [Hsl' [Hok Hraise]]]]]]]]].
      simpl in Htr'.
      exists (c :: done), rest, ((Print (searching_line c) :: evs ++ [Sleep 10]) :: chunks), tail.
      split; [done|]. split; [constructor; [by exists evs|done]|].
      split; [|done].
      rewrite Htr', Htr. simpl. by rewrite <- !app_assoc.
    + simplify_eq. exists [], (c :: cfg), [], (Print (searching_line c) :: evs).
      split; [done|]. split; [constructor|]. simpl.
      split; [by rewrite Htr, <- app_assoc|]. split; [done|].
      split; [intros [=]|]. intros e' _. by exists c, cfg, evs.
Qed.

Lemma pass_frame cfg s r s' :
  pass w cfg s = (r, s') → notified_ids s ⊆ notified_ids s'.
Proof.
  rewrite pass_eq.
  destruct (search_loop w cfg (pass_started w s)) as [[[]|e] s1] eqn:Hloop;
    apply search_loop_frame in Hloop as [Hsub _]; by intros [= <- <-].
Qed.

Lemma passes_frame cfg n : ∀ s r s',
  passes w cfg n s = (r, s') → notified_ids s ⊆ notified_ids s'.
Proof.
  induction n as [|n IH]; intros s r s' Hrun.
  - simpl in Hrun. unfold_M. by simplify_eq.
  - simpl in Hrun. unfold_M.
    destruct (pass w cfg s) as [[[]|e] s1] eqn:Hpass.
    + apply IH in Hrun. apply pass_frame in Hpass. set_solver.
    + simplify_eq. by eapply pass_frame.
Qed.

End Run.

(** X10. However many passes are made and whatever happens in them, no id
    leaves the set. *)
Theorem passes_never_forget (w : World) (cfg : list search_config) (n : nat)
    (s s' : state) (r : Py.result unit) :
  passes w cfg n s = (r, s') → notified_ids s ⊆ notified_ids s'.
Proof. intros Hrun. by apply passes_frame in Hrun. Qed.

(** X12. A pass that printed no line "An error occurred: ..." has written
    the whole set to the file, and a process started on that file begins
    with the same set. *)
Theorem completed_pass_survives_restart (w : World) (cfg : list search_config)
    (s s' : state) (evs : list event) :
  pass w cfg s = (Ok tt, s') →
  trace s' = trace s ++ evs →
  (∀ e, Print (error_line e) ∉ evs) →
  notified_ids_json s' = Some (Json.dumps (elements (notified_ids s'))) ∧
  ∃ s2,
    load_notified_ids (initial_state (notified_ids_json s')) = (Ok tt, s2) ∧
    notified_ids s2 = notified_ids s'.
Proof.
  rewrite pass_eq.
  destruct (search_loop w cfg (pass_started w s)) as [[[]|e] s1] eqn:Hloop.
  - intros [= <-] _ _. simpl. split; [done|].
    unfold load_notified_ids. simpl. rewrite loads_dumps. unfold_M.
    eexists. split; [reflexivity|]. simpl. apply list_to_set_elements_L.
  - intros [= <-] Htr Hquiet. exfalso.
    apply search_loop_chunks in Hloop as [done [rest [chunks [tail [_ [_ [Htr1 _]]]]]]].
    simpl in Htr, Htr1. rewrite Htr1, <- !app_assoc in Htr.
    apply app_inv_head in Htr. apply (Hquiet e). rewrite <- Htr.
    rewrite !elem_of_app. do 3 right. simpl. apply elem_of_cons. by left.
Qed.


(** X14. [main] raises exactly when its start raises, with the same
    exception and in the same state: no pass is made, and nothing that
    happens in a pass ends the process. *)
Theorem main_raises_only_at_startup (w : World) (n : nat) (s s' : state) (e : exn) :
  main w n s = (Raise e, s') ↔ startup w s = (Raise e, s').
Proof.
  unfold main. unfold_M.
  destruct (startup w s) as [[cfg|e0] s0] eqn:Hstart.
  - destruct (passes_return w cfg n s0) as [s1 ->]. split; intros [=].
  - simpl. split; by intros [= -> ->].
Qed.


(** X16. When [fetch_and_parse_reddit_search] returns, it has made one
    external call and left the set and the file alone; the list it
    returns is empty exactly when the download failed or the page has no
    search result; and it has printed, one line, exactly when the
    download failed. *)
Theorem fetched_list_empty_iff (w : World) (sr q : string) (s sa : state)
    (posts : list post) :
  fetch_and_parse_reddit_search w sr q s = (Ok posts, sa) →
  calls sa = S (calls s) ∧
  notified_ids sa = notified_ids s ∧
  notified_ids_json sa = notified_ids_json s ∧
  (posts = [] ↔
   (∃ e, http_get_search w (calls s) sr q = inl e) ∨
   (∃ soup, http_get_search w (calls s) sr q = inr soup ∧ search_result_nodes soup = [])) ∧
  (trace sa ≠ trace s ↔ ∃ e, http_get_search w (calls s) sr q = inl e) ∧
  (∀ e, http_get_search w (calls s) sr q = inl e →
        trace sa = trace s ++ [Print (fetch_failed_line e)]).
Proof.
  destruct (http_get_search w (calls s) sr q) as [e|soup] eqn:Hget.
  - rewrite (fetch_failure w _ _ _ e Hget). intros [= <- <-]. simpl.
    split; [done|]. split; [done|]. split; [done|]. split; [|split].
    + split; [intros _; left; by exists e|done].
    + split; [intros _; by exists e|]. intros _ Heq.
      apply (f_equal length) in Heq. rewrite length_app in Heq. simpl in Heq. lia.
    + by intros e' [= <-].
  - destruct (parse_reddit_search_results_total w soup) as [posts' [Hparse [Hlen _]]].
    rewrite (fetch_success w _ _ _ soup posts' Hget Hparse). intros [= <- <-]. simpl.
    split; [done|]. split; [done|]. split; [done|]. split; [|split].
    + split.
      * intros ->. right. exists soup. split; [done|].
        destruct (search_result_nodes soup); [done|discriminate].
      * intros [[e [=]]|[soup' [[= <-] Hnil]]]. rewrite Hnil in Hlen.
        by destruct posts'.
    + split; [done|]. by intros [e [=]].
    + by intros e [=].
Qed.

(** ** These properties at concrete inputs *)

Definition t0 : Z := 1717243200000000%Z.

(** The set holds "abc" and "def". *)
Definition s_abc_def : state :=
  {| notified_ids := {["abc"; "def"]}; notified_ids_json := Some (Json.dumps ["abc"]);
     trace := []; calls := 0 |}.


(** The configuration file is missing. *)
Definition w_no_config : World :=
  {| fromisoformat_utc := fromisoformat_utc w_ok;
     naturaltime := naturaltime w_ok;
     isoformat_new_york := isoformat_new_york w_ok;
     str_new_york := str_new_york w_ok;
     clock := clock w_ok;
     searches_yml := NoFile;
     environ_PUSHBULLET_API_KEY := environ_PUSHBULLET_API_KEY w_ok;
     http_get_search := http_get_search w_ok;
     http_post_push := http_post_push w_ok |}.

Lemma post_id_follows_last_underscore_at_t3_abc :
  post_id (post_of "abc" (Some t0)) = "abc".
Proof.
  destruct (post_id_follows_last_underscore w_ok
              (search_result "t3_abc" (Some stamp)) (post_of "abc" (Some t0)))
    as [_ [_ [_ Hid]]].
  - reflexivity.
  - apply (Hid "t3" "abc"); reflexivity.
Defined.

Lemma post_link_never_relative_at_abc_def :
  Forall (λ r, Str.startswith_char "/" (post_link r) = false)
    [post_of "abc" (Some t0); post_of "def" (Some t0)].
Proof.
  apply (post_link_never_relative w_ok page_abc_def). reflexivity.
Defined.

Lemma post_title_trimmed_at_abc_def :
  Forall (λ r, trimmed (post_title r))
    [post_of "abc" (Some t0); post_of "def" (Some t0)].
Proof.
  apply (post_title_trimmed w_ok page_abc_def). reflexivity.
Defined.

Lemma known_posts_are_passed_over_at_abc_def :
  let sa := (fetch_and_parse_reddit_search w_no_key "rust" "hiring" s_abc_def).2 in
  send_reddit_notifications w_no_key "rust" "hiring" s_abc_def
  = (Ok tt, printed (summary_line 2 0) sa) ∧
  notified_ids sa = notified_ids s_abc_def ∧
  pushes (trace sa) = pushes (trace s_abc_def).
Proof.
  intros sa.
  apply (known_posts_are_passed_over w_no_key "rust" "hiring" s_abc_def sa
           [post_of "abc" (Some t0); post_of "def" (Some t0)]).
  - reflexivity.
  - repeat constructor; simpl; set_solver.
Defined.

Lemma no_duplicate_notifications_at_abc_def :
  let s' := (send_reddit_notifications w_ok "rust" "hiring" s_abc).2 in
  ∃ posts sa new sent lines,
    fetch_and_parse_reddit_search w_ok "rust" "hiring" s_abc = (Ok posts, sa) ∧
    pushes (trace s') = pushes (trace s_abc) ++ sent ∧
    Forall2 (push_of w_ok "rust") new sent ∧
    sublist new posts ∧
    NoDup (post_id <$> new) ∧
    Forall (λ p, post_id p ∉ notified_ids s_abc) new ∧
    (length new ≤ length posts)%nat ∧
    trace s' = trace s_abc ++ lines ++ [Print (summary_line (length posts) (length new))].
Proof.
  intros s'.
  apply (no_duplicate_notifications w_ok "rust" "hiring" s_abc s').
  vm_compute. reflexivity.
Defined.

Lemma raised_errors_have_their_cause_at_page_no_time :
  let s' := (send_reddit_notifications w_no_time "rust" "hiring" s_empty).2 in
  ∃ posts sa,
    fetch_and_parse_reddit_search w_no_time "rust" "hiring" s_empty = (Ok posts, sa) ∧
    Exists (λ p, post_time p = None ∧
                 (post_id p ∉ notified_ids s_empty) ∧ (post_id p ∉ notified_ids s')) posts.
Proof.
  intros s'.
  apply (raised_errors_have_their_cause w_no_time "rust" "hiring" s_empty s').
  vm_compute. reflexivity.
Defined.

Lemma post_without_time_blocks_later_posts_at_xyz :
  let pre := [post_of "def" (Some t0)] in
  let rest := [post_of "ghi" (Some t0)] in
  let s1 := (notify_loop w_ok "rust" pre 0 s_abc).2 in
  notify_loop w_ok "rust" (pre ++ post_of "xyz" None :: rest) 0 s_abc
  = (Raise (TypeError no_time_message), called s1) ∧
  (∀ cnt' s2, notified_ids s2 = notified_ids s1 →
     notify_loop w_ok "rust" (pre ++ post_of "xyz" None :: rest) cnt' s2
     = (Raise (TypeError no_time_message), called s2)).
Proof.
  intros pre rest s1.
  apply (post_without_time_blocks_later_posts w_ok "rust" pre rest
           (post_of "xyz" None) 0 1 s_abc s1).
  - vm_compute. reflexivity.
  - vm_compute. set_solver.
  - reflexivity.
Defined.

Lemma load_search_config_raises_at_no_file :
  printed "Config file not found: searches.yml" s_empty
  = printed ("Config file not found: " +:+ "searches.yml") s_empty.
Proof.
  destruct (load_search_config_raises w_no_config "searches.yml" s_empty
              (printed "Config file not found: searches.yml" s_empty)
              (FileNotFoundError (no_such_file_message "searches.yml")))
    as [Hfound _].
  - reflexivity.
  - by apply (Hfound (no_such_file_message "searches.yml")).
Defined.

Lemma passes_never_forget_at_two_passes :
  notified_ids s_abc ⊆ notified_ids (passes w_ok [rust; golang] 2 s_abc).2.
Proof.
  apply (passes_never_forget w_ok [rust; golang] 2 s_abc
           (passes w_ok [rust; golang] 2 s_abc).2 (Ok tt)).
  vm_compute. reflexivity.
Defined.

Lemma completed_pass_survives_restart_at_abc_def :
  let s' := (pass w_ok [rust; golang] s_abc).2 in
  notified_ids_json s' = Some (Json.dumps (elements (notified_ids s'))) ∧
  ∃ s2,
    load_notified_ids (initial_state (notified_ids_json s')) = (Ok tt, s2) ∧
    notified_ids s2 = notified_ids s'.
Proof.
  intros s'.
  apply (completed_pass_survives_restart w_ok [rust; golang] s_abc s' (trace s')).
  - vm_compute. reflexivity.
  - reflexivity.
  - intros e Hin. vm_compute in Hin.
    repeat (apply elem_of_cons in Hin as [Hin|Hin]; [discriminate|]).
    by apply elem_of_nil in Hin.
Defined.

Lemma fetched_list_empty_iff_at_timeout :
  let sa := (fetch_and_parse_reddit_search w_reddit_down "rust" "hiring" s_abc).2 in
  calls sa = S (calls s_abc) ∧
  notified_ids sa = notified_ids s_abc ∧
  notified_ids_json sa = notified_ids_json s_abc ∧
  (@nil post = [] ↔
   (∃ e, http_get_search w_reddit_down (calls s_abc) "rust" "hiring" = inl e) ∨
   (∃ soup, http_get_search w_reddit_down (calls s_abc) "rust" "hiring" = inr soup ∧
            search_result_nodes soup = [])) ∧
  (trace sa ≠ trace s_abc ↔
   ∃ e, http_get_search w_reddit_down (calls s_abc) "rust" "hiring" = inl e) ∧
  (∀ e, http_get_search w_reddit_down (calls s_abc) "rust" "hiring" = inl e →
        trace sa = trace s_abc ++ [Print (fetch_failed_line e)]).
Proof.
  intros sa.
  apply (fetched_list_empty_iff w_reddit_down "rust" "hiring" s_abc sa []).
  reflexivity.
Defined.

